(** * granary.as2: conversion between ActivityStreams 1 and ActivityStreams 2

    A shallow embedding of [granary/as2.py] and the properties of its two
    converters, [from_as1] and [to_as1].

    Python values are embedded as the type [json]; a Python [dict] is a
    finite map from strings ([gmap string json]), so two dicts are equal
    exactly when they have the same keys and values, as in Python.
    Exceptions are an explicit outcome, [logging.warning] is an explicit
    log. *)

From stdpp Require Import gmap strings list fin_maps.
From Stdlib Require Import ZArith Lia.

Set Warnings "-register-all".
Open Scope string_scope.

(** ** Python values *)

Inductive json : Type :=
| JNull
| JBool (b : bool)
| JNum (z : Z)
| JStr (s : string)
| JList (l : list json)
| JDict (m : gmap string json).

(** [bool(v)]: [None], [False], [0], the empty string, list and dict are
    falsy. *)
Definition truthy (v : json) : bool :=
  match v with
  | JNull => false
  | JBool b => b
  | JNum z => negb (z =? 0)%Z
  | JStr s => negb (String.eqb s EmptyString)
  | JList l => negb (Nat.eqb (length l) 0)
  | JDict m => negb (Nat.eqb (size m) 0)
  end.

(** [a or b] *)
Definition py_or (a b : json) : json := if truthy a then a else b.

Definition is_dict (v : json) : bool :=
  match v with JDict _ => true | _ => false end.

(** [isinstance(v, basestring)] *)
Definition is_basestring (v : json) : bool :=
  match v with JStr _ => true | _ => false end.

(** Nesting depth; the converters recurse on values strictly below the
    dict they were called on. *)
Fixpoint depth (v : json) : nat :=
  match v with
  | JList l => S (foldr (fun x acc => Nat.max (depth x) acc) 0 l)
  | JDict m => S (map_fold (fun _ x acc => Nat.max (depth x) acc) 0 m)
  | _ => 0
  end.

(** ** Outcomes: a value, a raised exception, or recursion budget exhausted *)

Inductive exn : Type :=
| ValueError      (* raise ValueError('Expected dict, got %r') *)
| AttributeError  (* x.get on a value that is not a dict *)
| TypeError.      (* iterating a non-iterable, hashing a list or dict *)

Inductive result (A : Type) : Type :=
| Ret (a : A)
| Raise (e : exn)
| OutOfFuel.
Arguments Ret {A} a.
Arguments Raise {A} e.
Arguments OutOfFuel {A}.

Global Instance result_ret : MRet result := fun A a => Ret a.
Global Instance result_bind : MBind result := fun A B f c =>
  match c with
  | Ret a => f a
  | Raise e => Raise e
  | OutOfFuel => OutOfFuel
  end.

(** ** dict primitives *)

(** [d.get(k)] and [d.get(k, dflt)] *)
Definition dict_get (k : string) (d : gmap string json) : json :=
  default JNull (d !! k).
Definition dict_get_or (k : string) (dflt : json) (d : gmap string json) : json :=
  default dflt (d !! k).

(** [d.pop(k, None)]: the value and the dict without the key *)
Definition dict_pop (k : string) (d : gmap string json) : json * gmap string json :=
  (default JNull (d !! k), delete k d).

(** [d.update({k1: v1, ...})]: assignments in order *)
Definition dict_update (kvs : list (string * json)) (d : gmap string json)
  : gmap string json :=
  foldl (fun acc kv => <[kv.1 := kv.2]> acc) d kvs.

(** [d.keys() == [k]] (Python 2: [keys()] is a list) *)
Definition keys_are (k : string) (d : gmap string json) : bool :=
  Nat.eqb (size d) 1 && bool_decide (is_Some (d !! k)).

(** [for x in v]: a list yields its elements, a dict its keys, a string
    its characters; anything else is not iterable.  Python 2 leaves the
    order of a dict's keys unspecified; here it is the map's own order. *)
Fixpoint chars (s : string) : list json :=
  match s with
  | EmptyString => []
  | String c s' => JStr (String c EmptyString) :: chars s'
  end.

Definition py_iter (v : json) : result (list json) :=
  match v with
  | JList l => Ret l
  | JDict m => Ret (JStr <$> (map_to_list m).*1)
  | JStr s => Ret (chars s)
  | _ => Raise TypeError
  end.

(** [orig.get('url')] on an arbitrary value *)
Definition attr_get (k : string) (v : json) : result json :=
  match v with
  | JDict m => Ret (dict_get k m)
  | _ => Raise AttributeError
  end.

(** ** The helpers of [oauth_dropins.webutil.util] *)

(** Modelled from the spec: [util.trim_nulls] lives in the external package
    oauth_dropins.  It recursively removes mapping keys whose value is null,
    the empty string, the empty list or the empty mapping; applied to a list
    (as [from_as1] does for [inReplyTo]) it removes such elements. *)
Definition is_null (v : json) : bool :=
  match v with
  | JNull => true
  | JStr s => String.eqb s EmptyString
  | JList l => Nat.eqb (length l) 0
  | JDict m => Nat.eqb (size m) 0
  | _ => false
  end.

Definition keep (v : json) : option json :=
  if is_null v then None else Some v.

Fixpoint trim_nulls (v : json) : json :=
  match v with
  | JList l => JList (omap (fun x => keep (trim_nulls x)) l)
  | JDict m => JDict (omap (fun x => keep (trim_nulls x)) m)
  | _ => v
  end.

(** Modelled from the spec: [util.get_list] lives in the external package
    oauth_dropins.  It reads a key's value normalised to a list: absent gives
    the empty list, a list gives itself, a single value a one-element list. *)
Definition get_list (d : gmap string json) (k : string) : list json :=
  match d !! k with
  | None => []
  | Some (JList l) => l
  | Some v => [v]
  end.

(** Modelled from the spec: [util.pop_list] lives in the external package
    oauth_dropins.  It is [get_list] that also removes the key. *)
Definition pop_list (d : gmap string json) (k : string)
  : list json * gmap string json :=
  (get_list d k, delete k d).

(** ** Vocabulary tables *)

Definition CONTEXT : string := "https://www.w3.org/ns/activitystreams".

(** A dict literal: later entries overwrite earlier ones. *)
Definition dict_literal (items : list (string * string)) : gmap string string :=
  foldl (fun acc kv => <[kv.1 := kv.2]> acc) ∅ items.

(** [{v: k for k, v in d.items()}], over the items in the order given.
    Python 2 does not specify the order of [d.items()]; the tables below list
    their items in source order, and [invert_any_order] covers every other
    order. *)
Definition _invert (items : list (string * string)) : gmap string string :=
  dict_literal (map (fun kv => (kv.2, kv.1)) items).

Definition OBJECT_TYPE_TO_TYPE_items : list (string * string) :=
  [ ("article", "Article");
    ("audio", "Audio");
    ("collection", "Collection");
    ("comment", "Note");
    ("event", "Event");
    ("image", "Image");
    ("note", "Note");
    ("person", "Person");
    ("place", "Place");
    ("video", "Video") ].
Definition OBJECT_TYPE_TO_TYPE : gmap string string :=
  dict_literal OBJECT_TYPE_TO_TYPE_items.
Definition TYPE_TO_OBJECT_TYPE : gmap string string :=
  _invert OBJECT_TYPE_TO_TYPE_items.

Definition VERB_TO_TYPE_items : list (string * string) :=
  [ ("favorite", "Favorite");
    ("invite", "Invite");
    ("like", "Like");
    ("post", "Create");
    ("rsvp-maybe", "TentativeAccept");
    ("rsvp-no", "Reject");
    ("rsvp-yes", "Accept");
    ("share", "Announce");
    ("tag", "Add");
    ("update", "Update") ].
Definition VERB_TO_TYPE : gmap string string :=
  dict_literal VERB_TO_TYPE_items.
Definition TYPE_TO_VERB : gmap string string :=
  _invert VERB_TO_TYPE_items.

(** [TABLE.get(key)] for an arbitrary Python value as key: a list or a dict
    is unhashable, any other non-string is simply not in the table. *)
Definition table_get (t : gmap string string) (key : json) : result json :=
  match key with
  | JStr s => Ret (from_option JStr JNull (t !! s))
  | JList _ | JDict _ => Raise TypeError
  | _ => Ret JNull
  end.

(** An optional string argument ([None] or a string) as a value. *)
Definition of_opt (o : option string) : json := from_option JStr JNull o.

Definition trim_dict (d : gmap string json) : gmap string json :=
  omap (fun x => keep (trim_nulls x)) d.

(** [copy.deepcopy]: values here are immutable, so the copy is the value
    itself; module [Store] below models the mutable objects. *)
Definition deepcopy (v : json) : json := v.

(** ** AS1 to AS2 *)

Section FromAS1.
(** The recursive calls of [from_as1]. *)
Variable self : json -> option string -> option string -> result json.

(** The nested helper [all_from_as1(field, type)]; it pops [field] from
    the enclosing [obj]. *)
Definition all_from_as1 (obj : gmap string json) (field : string)
    (type : option string) : result (list json * gmap string json) :=
  let '(elems, obj) := pop_list obj field in
  l ← mapM (fun elem => self elem type None) elems;
  mret (l, obj).

Definition from_as1_body (obj : json) (type context : option string)
  : result json :=
  if negb (truthy obj) then mret (JDict ∅)
  else match deepcopy obj with
  | JDict obj =>
    let '(verb, obj) := dict_pop "verb" obj in
    let '(obj_type, obj) := dict_pop "objectType" obj in
    t1 ← table_get OBJECT_TYPE_TO_TYPE (py_or verb obj_type);
    type ← (if truthy t1 then mret t1
            else t2 ← table_get VERB_TO_TYPE (py_or verb obj_type);
                 mret (py_or t2 (of_opt type)));
    let obj := if truthy (of_opt context)
               then <["@context" := JStr CONTEXT]> obj else obj in
    let '(name, obj) := dict_pop "displayName" obj in
    actor ← self (dict_get "actor" obj) None None;
    '(attachment, obj) ← all_from_as1 obj "attachments" None;
    '(attributedTo, obj) ← all_from_as1 obj "author" (Some "Person");
    '(image, obj) ← all_from_as1 obj "image" (Some "Image");
    origs ← py_iter (dict_get_or "inReplyTo" (JList []) obj);
    urls ← mapM (attr_get "url") origs;
    let inReplyTo := trim_nulls (JList urls) in
    object ← self (dict_get "object" obj) None None;
    '(tag, obj) ← all_from_as1 obj "tags" None;
    let obj := dict_update
      [ ("type", type);
        ("name", name);
        ("actor", actor);
        ("attachment", JList attachment);
        ("attributedTo", JList attributedTo);
        ("image", JList image);
        ("inReplyTo", inReplyTo);
        ("object", object);
        ("tag", JList tag) ] obj in
    let loc := dict_get "location" obj in
    obj ← (if truthy loc
           then l ← self loc (Some "Place") None;
                mret (<["location" := l]> obj)
           else mret obj);
    let obj := trim_dict obj in
    if keys_are "url" obj then mret (dict_get "url" obj)
    else mret (JDict obj)
  | _ => Raise ValueError
  end.
End FromAS1.

Fixpoint from_as1_fuel (fuel : nat) (obj : json) (type context : option string)
  : result json :=
  match fuel with
  | 0 => OutOfFuel
  | S n => from_as1_body (from_as1_fuel n) obj type context
  end.

(** [from_as1(obj, type, context)]; the defaults are [type=None] and
    [context=CONTEXT].  The budget [S (depth obj)] is enough for every
    input ([from_as1_unfold], [from_as1_terminates]). *)
Definition from_as1 (obj : json) (type context : option string) : result json :=
  from_as1_fuel (S (depth obj)) obj type context.

Definition dict_of (kvs : list (string * json)) : json :=
  JDict (dict_update kvs ∅).

(** ** AS2 to AS1 *)

(** [to_as1] also logs: a computation carries the warnings emitted so far,
    each recorded by the values it names ([attrib[1:]]). *)
Record logged (A : Type) : Type :=
  Logged { warnings : list (list json); outcome : result A }.
Arguments Logged {A} warnings outcome.
Arguments warnings {A} l.
Arguments outcome {A} l.

Global Instance logged_ret : MRet logged := fun A a => Logged [] (Ret a).
Global Instance logged_bind : MBind logged := fun A B f c =>
  match outcome c with
  | Ret a => let r := f a in Logged (warnings c ++ warnings r) (outcome r)
  | Raise e => Logged (warnings c) (Raise e)
  | OutOfFuel => Logged (warnings c) OutOfFuel
  end.

Definition lift {A} (r : result A) : logged A := Logged [] r.

(** [logging.warning('... dropping extra attributedTo values: %s' % dropped)] *)
Definition warning (dropped : list json) : logged unit :=
  Logged [dropped] (Ret tt).

(** [v in (s1, s2, ...)] for a tuple of strings *)
Definition py_in (v : json) (ss : list string) : bool :=
  match v with
  | JStr s => bool_decide (s ∈ ss)
  | _ => false
  end.

Section ToAS1.
(** The recursive calls of [to_as1]. *)
Variable self : json -> bool -> logged json.

Definition url_or_as1 (val : json) : logged json :=
  if is_basestring val then mret (JDict {["url" := val]})
  else self val true.

Definition all_to_as1 (obj : gmap string json) (field : string)
  : logged (list json * gmap string json) :=
  let '(elems, obj) := pop_list obj field in
  l ← mapM (fun elem => self elem true) elems;
  mret (l, obj).

Definition to_as1_body (obj : json) (use_type : bool) : logged json :=
  if negb (truthy obj) then mret (JDict ∅)
  else if is_basestring obj then mret (JDict {["url" := obj]})
  else match deepcopy obj with
  | JDict obj =>
    let '(_, obj) := dict_pop "@context" obj in
    let '(type, obj) := dict_pop "type" obj in
    obj ← (if use_type then
             ot ← lift (table_get TYPE_TO_OBJECT_TYPE type);
             let obj := <["objectType" := ot]> obj in
             vb ← lift (table_get TYPE_TO_VERB type);
             let obj := <["verb" := vb]> obj in
             if truthy (dict_get "inReplyTo" obj)
                && py_in (dict_get "objectType" obj) ["note"; "article"]
             then mret (<["objectType" := JStr "comment"]> obj)
             else if truthy (dict_get "verb" obj)
                     && negb (truthy (dict_get "objectType" obj))
             then mret (<["objectType" := JStr "activity"]> obj)
             else mret obj
           else mret obj);
    let '(name, obj) := dict_pop "name" obj in
    actor ← self (dict_get "actor" obj) true;
    '(attachments, obj) ← all_to_as1 obj "attachment";
    imgs ← lift (py_iter (dict_get_or "image" (JList []) obj));
    image ← mapM (fun img => self img false) imgs;
    inReplyTo ← mapM url_or_as1 (get_list obj "inReplyTo");
    location ← url_or_as1 (dict_get "location" obj);
    object ← self (dict_get "object" obj) true;
    '(tags, obj) ← all_to_as1 obj "tag";
    let obj := dict_update
      [ ("displayName", name);
        ("actor", actor);
        ("attachments", JList attachments);
        ("image", JList image);
        ("inReplyTo", JList inReplyTo);
        ("location", location);
        ("object", object);
        ("tags", JList tags) ] obj in
    let '(attrib, obj) := pop_list obj "attributedTo" in
    obj ← match attrib with
          | [] => mret obj
          | first :: rest =>
            _ ← (if Nat.ltb 1 (length attrib) then warning rest
                 else mret tt);
            author ← self first true;
            mret (<["author" := author]> obj)
          end;
    mret (JDict (trim_dict obj))
  | _ => Logged [] (Raise ValueError)
  end.
End ToAS1.

Fixpoint to_as1_fuel (fuel : nat) (obj : json) (use_type : bool) : logged json :=
  match fuel with
  | 0 => Logged [] OutOfFuel
  | S n => to_as1_body (to_as1_fuel n) obj use_type
  end.

(** [to_as1(obj, use_type)]; the default is [use_type=True]. *)
Definition to_as1 (obj : json) (use_type : bool) : logged json :=
  to_as1_fuel (S (depth obj)) obj use_type.

(** ** Values below a depth bound *)

Definition below (D : nat) (d : gmap string json) : Prop :=
  forall k v, d !! k = Some v -> depth v < D.

(** ** The recursion budget is enough

    Two runs agree when they give the same outcome and it is not a budget
    exhaustion. *)
Definition agree {A} (r1 r2 : result A) : Prop := r1 = r2 /\ r1 <> OutOfFuel.

Definition agreeL {A} (c1 c2 : logged A) : Prop :=
  c1 = c2 /\ outcome c1 <> OutOfFuel.

(** ** The vocabulary tables and their inverses *)

(** No two keys of a table share a value. *)
Definition injective_table (d : gmap string string) : Prop :=
  forall k1 k2 v, d !! k1 = Some v -> d !! k2 = Some v -> k1 = k2.

(** Two keys of a table share a value only when both are in [exc]. *)
Definition injective_outside (exc : list string) (d : gmap string string) : Prop :=
  forall k1 k2 v, d !! k1 = Some v -> d !! k2 = Some v ->
    k1 = k2 \/ (k1 ∈ exc /\ k2 ∈ exc).

Definition check_outside (exc : list string) (l : list (string * string)) : bool :=
  forallb (fun p => forallb (fun q =>
    implb (String.eqb p.2 q.2)
          (String.eqb p.1 q.1 || (bool_decide (p.1 ∈ exc) && bool_decide (q.1 ∈ exc))))
    l) l.

(** C6, as stated: neither table has two keys with the same value, so
    flipping loses no entry. *)
Definition C6_statement : Prop :=
  injective_table OBJECT_TYPE_TO_TYPE /\ injective_table VERB_TO_TYPE
  /\ size TYPE_TO_OBJECT_TYPE = size OBJECT_TYPE_TO_TYPE
  /\ size TYPE_TO_VERB = size VERB_TO_TYPE.

(** ** Round trip of a link-only object *)

(** [to_as1(from_as1(obj, context=ctx))] *)
Definition round_trip (obj : json) (ctx : option string) : logged json :=
  match from_as1 obj None ctx with
  | Ret v => to_as1 v true
  | Raise e => Logged [] (Raise e)
  | OutOfFuel => Logged [] OutOfFuel
  end.

Definition link_only (s : string) : json := JDict {["url" := JStr s]}.

(** The dict [from_as1] holds just before trimming, given the dict [m] it was
    called on and the values it computed for the fields. *)
Definition from_as1_fields (m : gmap string json) (context : option string)
    (type actor attachment attributedTo image inReplyTo object tag : json)
  : gmap string json :=
  dict_update
    [ ("type", type); ("name", dict_get "displayName" m); ("actor", actor);
      ("attachment", attachment); ("attributedTo", attributedTo);
      ("image", image); ("inReplyTo", inReplyTo); ("object", object);
      ("tag", tag) ]
    (delete "tags" (delete "image" (delete "author" (delete "attachments"
      (delete "displayName"
        (if truthy (of_opt context)
         then <["@context" := JStr CONTEXT]> (delete "objectType" (delete "verb" m))
         else delete "objectType" (delete "verb" m))))))).

(** The last two steps of [from_as1]: trim, then collapse a dict whose only
    key is [url]. *)
Definition from_as1_finish (obj : gmap string json) : json :=
  if keys_are "url" (trim_dict obj) then dict_get "url" (trim_dict obj)
  else JDict (trim_dict obj).

(** The value [type] is bound to. *)
Definition from_as1_type (m : gmap string json) (hint : option string)
  : result json :=
  let key := py_or (dict_get "verb" m) (dict_get "objectType" m) in
  t1 ← table_get OBJECT_TYPE_TO_TYPE key;
  if truthy t1 then mret t1
  else t2 ← table_get VERB_TO_TYPE key; mret (py_or t2 (of_opt hint)).

(** The value [objectType] holds after the vocabulary step of [to_as1], from
    the two inverse-table lookups [ot] and [vb]. *)
Definition to_as1_objectType (inReplyTo ot vb : json) : json :=
  if truthy inReplyTo && py_in ot ["note"; "article"] then JStr "comment"
  else if truthy vb && negb (truthy ot) then JStr "activity"
  else ot.

(** The dict [to_as1] holds after popping [@context] and [type] and, when
    [use_type] is set, filling in [objectType] and [verb]. *)
Definition to_as1_typed (m : gmap string json) (use_type : bool)
  : result (gmap string json) :=
  let obj := delete "type" (delete "@context" m) in
  if use_type then
    ot ← table_get TYPE_TO_OBJECT_TYPE (dict_get "type" m);
    vb ← table_get TYPE_TO_VERB (dict_get "type" m);
    mret (<["objectType" := to_as1_objectType (dict_get "inReplyTo" m) ot vb]>
            (<["verb" := vb]> obj))
  else mret obj.

(** The dict [to_as1] holds after [obj.update], given the dict [o] left by
    the vocabulary step and the values computed for the fields. *)
Definition to_as1_fields (o : gmap string json)
    (actor attachments image inReplyTo location object tags : json)
  : gmap string json :=
  dict_update
    [ ("displayName", dict_get "name" o); ("actor", actor);
      ("attachments", attachments); ("image", image);
      ("inReplyTo", inReplyTo); ("location", location); ("object", object);
      ("tags", tags) ]
    (delete "tag" (delete "attachment" (delete "name" o))).

(** The warning this call itself logs for the list [attrib]. *)
Definition own_warning (attrib : list json) : list (list json) :=
  match attrib with
  | _ :: (_ :: _) as rest => [rest]
  | _ => []
  end.

(** ** C9: type resolution *)

(** [TABLE.get(key)] when it does not raise. *)
Definition table_lookup (t : gmap string string) (key : json) : option string :=
  match key with JStr s => t !! s | _ => None end.

(** The resolution order in the words of the specification: the verb if it
    is there, else the objectType; that value in the objectType table, then
    in the verb table, then the hint. *)
Definition resolved_type (m : gmap string json) (hint : option string) : json :=
  let key := if truthy (dict_get "verb" m) then dict_get "verb" m
             else dict_get "objectType" m in
  match table_lookup OBJECT_TYPE_TO_TYPE key with
  | Some ty => JStr ty
  | None =>
    match table_lookup VERB_TO_TYPE key with
    | Some ty => JStr ty
    | None => of_opt hint
    end
  end.

(** ** C5: keys of the other dialect *)


(** The resolution as the specification words it, reading "present" as: the
    key is there. *)
Definition claimed_type (m : gmap string json) (hint : option string) : json :=
  let key := match m !! "verb" with
             | Some verb => verb
             | None => dict_get "objectType" m
             end in
  match table_lookup OBJECT_TYPE_TO_TYPE key with
  | Some ty => JStr ty
  | None =>
    match table_lookup VERB_TO_TYPE key with
    | Some ty => JStr ty
    | None => of_opt hint
    end
  end.

(** ** C8: more than one author *)

(** The warnings logged by the conversions of the fields of [m], in the
    order [to_as1] makes them. *)
Definition nested_warnings (m : gmap string json) : list (list json) :=
  warnings (to_as1 (dict_get "actor" m) true)
  ++ warnings (mapM (fun e => to_as1 e true) (get_list m "attachment"))
  ++ match py_iter (dict_get_or "image" (JList []) m) with
     | Ret imgs => warnings (mapM (fun e => to_as1 e false) imgs)
     | _ => []
     end
  ++ warnings (mapM (url_or_as1 to_as1) (get_list m "inReplyTo"))
  ++ warnings (url_or_as1 to_as1 (dict_get "location" m))
  ++ warnings (to_as1 (dict_get "object" m) true)
  ++ warnings (mapM (fun e => to_as1 e true) (get_list m "tag")).

(** ** The converters over a store of mutable objects

    In Python a dict or a list is an object held by reference, and
    [obj.pop], [obj.update] and [obj[k] = v] change it in place.  Module
    [Store] embeds the converters once more with that made explicit:
    containers live in a store, values refer to them by location, and every
    step of the source that reads or changes an object is a read or a write
    of the store. *)

Module Store.

Inductive val : Type :=
| VNull
| VBool (b : bool)
| VNum (z : Z)
| VStr (s : string)
| VRef (l : nat).

Inductive cell : Type :=
| CList (vs : list val)
| CDict (d : gmap string val).

(** The objects allocated so far, and the warnings logged so far. *)
Record state : Type := State { heap : list cell; log : list (list val) }.

(** [Stuck]: the recursion budget ran out, or the store is one no Python
    program can reach (a reference to nothing, a list where the source has
    checked for a dict). *)
Inductive outcome (A : Type) : Type :=
| Done (a : A)
| Exn (e : exn)
| Stuck.
Arguments Done {A} a.
Arguments Exn {A} e.
Arguments Stuck {A}.

Definition M (A : Type) : Type := state -> outcome A * state.

Global Instance M_ret : MRet M := fun A a s => (Done a, s).
Global Instance M_bind : MBind M := fun A B f c s =>
  match c s with
  | (Done a, s') => f a s'
  | (Exn e, s') => (Exn e, s')
  | (Stuck, s') => (Stuck, s')
  end.

Definition raise {A} (e : exn) : M A := fun s => (Exn e, s).
Definition stuck {A} : M A := fun s => (Stuck, s).

(** A new object: it gets the next free location. *)
Definition alloc (c : cell) : M val := fun s =>
  (Done (VRef (length (heap s))), State (heap s ++ [c]) (log s)).

Definition read (l : nat) : M cell := fun s =>
  match heap s !! l with
  | Some c => (Done c, s)
  | None => (Stuck, s)
  end.

(** The object at [l] is changed in place. *)
Definition write (l : nat) (c : cell) : M unit := fun s =>
  (Done tt, State (<[l := c]> (heap s)) (log s)).

Definition warning (dropped : list val) : M unit := fun s =>
  (Done tt, State (heap s) (log s ++ [dropped])).

Definition read_dict (o : nat) : M (gmap string val) :=
  c ← read o;
  match c with
  | CDict d => mret d
  | CList _ => stuck
  end.

(** [obj.get(k)], [obj.pop(k, None)], [obj[k] = v], [obj.update({...})] on
    the dict at [o] *)
Definition dict_get (k : string) (o : nat) : M val :=
  d ← read_dict o; mret (default VNull (d !! k)).

Definition dict_pop (k : string) (o : nat) : M val :=
  d ← read_dict o;
  _ ← write o (CDict (delete k d));
  mret (default VNull (d !! k)).

Definition dict_set (k : string) (v : val) (o : nat) : M unit :=
  d ← read_dict o; write o (CDict (<[k := v]> d)).

Definition dict_update (kvs : list (string * val)) (o : nat) : M unit :=
  d ← read_dict o;
  write o (CDict (foldl (fun acc kv => <[kv.1 := kv.2]> acc) d kvs)).

Definition truthy (v : val) : M bool :=
  match v with
  | VNull => mret false
  | VBool b => mret b
  | VNum z => mret (negb (z =? 0)%Z)
  | VStr s => mret (negb (String.eqb s EmptyString))
  | VRef l =>
    c ← read l;
    mret (match c with
          | CList vs => negb (Nat.eqb (length vs) 0)
          | CDict d => negb (Nat.eqb (size d) 0)
          end)
  end.

Definition is_dict (v : val) : M bool :=
  match v with
  | VRef l => c ← read l; mret (match c with CDict _ => true | CList _ => false end)
  | _ => mret false
  end.

Definition is_basestring (v : val) : bool :=
  match v with VStr _ => true | _ => false end.

(** [copy.deepcopy]: every container reachable from [v] is allocated
    anew.  (Python keeps an object that is reached twice shared in the
    copy; here it is copied once per path, which reads the same.) *)
Fixpoint deepcopy (fuel : nat) (v : val) {struct fuel} : M val :=
  match v with
  | VRef l =>
    match fuel with
    | 0 => stuck
    | S n =>
      c ← read l;
      match c with
      | CList vs => vs' ← mapM (deepcopy n) vs; alloc (CList vs')
      | CDict d =>
        kvs ← mapM (fun kv => v' ← deepcopy n kv.2; mret (kv.1, v')) (map_to_list d);
        alloc (CDict (list_to_map kvs))
      end
    end
  | _ => mret v
  end.

Definition is_null (v : val) : M bool :=
  match v with
  | VNull => mret true
  | VStr _ | VRef _ => t ← truthy v; mret (negb t)
  | _ => mret false
  end.

Fixpoint filterM {A} (p : A -> M bool) (l : list A) : M (list A) :=
  match l with
  | [] => mret []
  | x :: l => b ← p x; r ← filterM p l; mret (if (b : bool) then x :: r else r)
  end.

(** Modelled from the spec: [util.trim_nulls] of the external package
    oauth_dropins; it leaves its argument alone and builds a new tree
    without the null, empty-string, empty-list and empty-dict values. *)
Fixpoint trim_nulls (fuel : nat) (v : val) {struct fuel} : M val :=
  match v with
  | VRef l =>
    match fuel with
    | 0 => stuck
    | S n =>
      c ← read l;
      match c with
      | CList vs =>
        vs' ← mapM (trim_nulls n) vs;
        kept ← filterM (fun x => b ← is_null x; mret (negb b)) vs';
        alloc (CList kept)
      | CDict d =>
        kvs ← mapM (fun kv => v' ← trim_nulls n kv.2; mret (kv.1, v')) (map_to_list d);
        kept ← filterM (fun kv => b ← is_null kv.2; mret (negb b)) kvs;
        alloc (CDict (list_to_map kept))
      end
    end
  | _ => mret v
  end.

(** Modelled from the spec: [util.get_list] and [util.pop_list] of the
    external package oauth_dropins, returning the elements; [pop_list]
    removes the key from the dict at [o]. *)
Definition as_list (v : option val) : M (list val) :=
  match v with
  | None => mret []
  | Some (VRef l) =>
    c ← read l;
    match c with
    | CList vs => mret vs
    | CDict _ => mret [VRef l]
    end
  | Some v => mret [v]
  end.

Definition get_list (o : nat) (k : string) : M (list val) :=
  d ← read_dict o; as_list (d !! k).

Definition pop_list (o : nat) (k : string) : M (list val) :=
  d ← read_dict o;
  _ ← write o (CDict (delete k d));
  as_list (d !! k).

Definition table_get (t : gmap string string) (key : val) : M val :=
  match key with
  | VStr s => mret (from_option VStr VNull (t !! s))
  | VRef _ => raise TypeError
  | _ => mret VNull
  end.

Definition of_opt (o : option string) : val := from_option VStr VNull o.

Fixpoint chars (s : string) : list val :=
  match s with
  | EmptyString => []
  | String c s' => VStr (String c EmptyString) :: chars s'
  end.

(** [for x in v] *)
Definition py_iter (v : val) : M (list val) :=
  match v with
  | VRef l =>
    c ← read l;
    match c with
    | CList vs => mret vs
    | CDict d => mret (VStr <$> (map_to_list d).*1)
    end
  | VStr s => mret (chars s)
  | _ => raise TypeError
  end.

(** [orig.get(k)] on an arbitrary value *)
Definition attr_get (k : string) (v : val) : M val :=
  match v with
  | VRef l =>
    c ← read l;
    match c with
    | CDict d => mret (default VNull (d !! k))
    | CList _ => raise AttributeError
    end
  | _ => raise AttributeError
  end.

(** [obj.keys() == [k]] *)
Definition keys_are (k : string) (o : nat) : M bool :=
  d ← read_dict o;
  mret (Nat.eqb (size d) 1 && bool_decide (is_Some (d !! k))).

Section FromAS1.
Variable fuel : nat.
Variable self : val -> option string -> option string -> M val.

Definition all_from_as1 (o : nat) (field : string) (type : option string)
  : M val :=
  elems ← pop_list o field;
  l ← mapM (fun elem => self elem type None) elems;
  alloc (CList l).

Definition from_as1_body (obj : val) (type context : option string) : M val :=
  t ← truthy obj;
  if negb t then alloc (CDict ∅)
  else
    d ← is_dict obj;
    if negb d then raise ValueError
    else
      obj ← deepcopy fuel obj;
      match obj with
      | VRef o =>
        verb ← dict_pop "verb" o;
        obj_type ← dict_pop "objectType" o;
        tv ← truthy verb;
        let key := if (tv : bool) then verb else obj_type in
        t1 ← table_get OBJECT_TYPE_TO_TYPE key;
        tt1 ← truthy t1;
        type ← (if (tt1 : bool) then mret t1
                else t2 ← table_get VERB_TO_TYPE key;
                     tt2 ← truthy t2;
                     mret (if (tt2 : bool) then t2 else of_opt type));
        tc ← truthy (of_opt context);
        _ ← (if (tc : bool) then dict_set "@context" (VStr CONTEXT) o else mret tt);
        name ← dict_pop "displayName" o;
        a ← dict_get "actor" o;
        actor ← self a None None;
        attachment ← all_from_as1 o "attachments" None;
        attributedTo ← all_from_as1 o "author" (Some "Person");
        image ← all_from_as1 o "image" (Some "Image");
        d ← read_dict o;
        origs ← match d !! "inReplyTo" with
                | Some v => py_iter v
                | None => mret []
                end;
        urls ← mapM (attr_get "url") origs;
        urls ← alloc (CList urls);
        inReplyTo ← trim_nulls fuel urls;
        ob ← dict_get "object" o;
        object ← self ob None None;
        tag ← all_from_as1 o "tags" None;
        _ ← dict_update
              [ ("type", type);
                ("name", name);
                ("actor", actor);
                ("attachment", attachment);
                ("attributedTo", attributedTo);
                ("image", image);
                ("inReplyTo", inReplyTo);
                ("object", object);
                ("tag", tag) ] o;
        loc ← dict_get "location" o;
        tl ← truthy loc;
        _ ← (if (tl : bool) then l ← self loc (Some "Place") None; dict_set "location" l o
             else mret tt);
        obj ← trim_nulls fuel (VRef o);
        match obj with
        | VRef o' =>
          b ← keys_are "url" o';
          if (b : bool) then dict_get "url" o' else mret obj
        | _ => stuck
        end
      | _ => stuck
      end.
End FromAS1.

Fixpoint from_as1 (fuel : nat) (obj : val) (type context : option string)
  : M val :=
  match fuel with
  | 0 => stuck
  | S n => from_as1_body (S n) (from_as1 n) obj type context
  end.

(** [v in (s1, s2, ...)] for a tuple of strings *)
Definition py_in (v : val) (ss : list string) : bool :=
  match v with
  | VStr s => bool_decide (s ∈ ss)
  | _ => false
  end.

Section ToAS1.
Variable fuel : nat.
Variable self : val -> bool -> M val.

Definition url_or_as1 (v : val) : M val :=
  if is_basestring v then alloc (CDict {["url" := v]})
  else self v true.

Definition all_to_as1 (o : nat) (field : string) : M val :=
  elems ← pop_list o field;
  l ← mapM (fun elem => self elem true) elems;
  alloc (CList l).

Definition to_as1_body (obj : val) (use_type : bool) : M val :=
  t ← truthy obj;
  if negb t then alloc (CDict ∅)
  else if is_basestring obj then alloc (CDict {["url" := obj]})
  else
    d ← is_dict obj;
    if negb d then raise ValueError
    else
      obj ← deepcopy fuel obj;
      match obj with
      | VRef o =>
        _ ← dict_pop "@context" o;
        type ← dict_pop "type" o;
        _ ← (if use_type then
               ot ← table_get TYPE_TO_OBJECT_TYPE type;
               _ ← dict_set "objectType" ot o;
               vb ← table_get TYPE_TO_VERB type;
               _ ← dict_set "verb" vb o;
               irt ← dict_get "inReplyTo" o;
               tirt ← truthy irt;
               ot ← dict_get "objectType" o;
               if tirt && py_in ot ["note"; "article"]
               then dict_set "objectType" (VStr "comment") o
               else
                 vb ← dict_get "verb" o;
                 tvb ← truthy vb;
                 tot ← truthy ot;
                 if tvb && negb tot
                 then dict_set "objectType" (VStr "activity") o
                 else mret tt
             else mret tt);
        name ← dict_pop "name" o;
        a ← dict_get "actor" o;
        actor ← self a true;
        attachments ← all_to_as1 o "attachment";
        d ← read_dict o;
        imgs ← match d !! "image" with
               | Some v => py_iter v
               | None => mret []
               end;
        image ← mapM (fun img => self img false) imgs;
        image ← alloc (CList image);
        origs ← get_list o "inReplyTo";
        inReplyTo ← mapM url_or_as1 origs;
        inReplyTo ← alloc (CList inReplyTo);
        loc ← dict_get "location" o;
        location ← url_or_as1 loc;
        ob ← dict_get "object" o;
        object ← self ob true;
        tags ← all_to_as1 o "tag";
        _ ← dict_update
              [ ("displayName", name);
                ("actor", actor);
                ("attachments", attachments);
                ("image", image);
                ("inReplyTo", inReplyTo);
                ("location", location);
                ("object", object);
                ("tags", tags) ] o;
        attrib ← pop_list o "attributedTo";
        _ ← match attrib with
            | [] => mret tt
            | first :: rest =>
              _ ← (if Nat.ltb 1 (length attrib) then warning rest else mret tt);
              author ← self first true;
              dict_set "author" author o
            end;
        trim_nulls fuel (VRef o)
      | _ => stuck
      end.
End ToAS1.

Fixpoint to_as1 (fuel : nat) (obj : val) (use_type : bool) : M val :=
  match fuel with
  | 0 => stuck
  | S n => to_as1_body (S n) (to_as1 n) obj use_type
  end.

(** Reading a tree back from the store, and putting one there. *)
Fixpoint load (fuel : nat) (h : list cell) (v : val) {struct fuel} : option json :=
  match v with
  | VNull => Some JNull
  | VBool b => Some (JBool b)
  | VNum z => Some (JNum z)
  | VStr s => Some (JStr s)
  | VRef l =>
    match fuel with
    | 0 => None
    | S n =>
      match h !! l with
      | Some (CList vs) => JList <$> mapM (load n h) vs
      | Some (CDict d) =>
        (fun kvs => JDict (list_to_map kvs))
          <$> mapM (fun kv => j ← load n h kv.2; Some (kv.1, j)) (map_to_list d)
      | None => None
      end
    end
  end.

Fixpoint store (j : json) : M val :=
  match j with
  | JNull => mret VNull
  | JBool b => mret (VBool b)
  | JNum z => mret (VNum z)
  | JStr s => mret (VStr s)
  | JList l => vs ← mapM store l; alloc (CList vs)
  | JDict m =>
    d ← map_fold (fun k x (acc : M (gmap string val)) =>
                    d ← acc; v ← store x; mret (<[k := v]> d))
                 (mret ∅) m;
    alloc (CDict d)
  end.

(** A value that refers to nothing allocated before [n]. *)
Definition fresh (n : nat) (v : val) : Prop :=
  match v with VRef l => n <= l | _ => True end.

Definition cell_fresh (n : nat) (c : cell) : Prop :=
  match c with
  | CList vs => Forall (fresh n) vs
  | CDict d => map_Forall (fun _ => fresh n) d
  end.

(** The objects allocated from [n] on refer only to objects allocated from
    [n] on. *)
Definition closed (n : nat) (h : list cell) : Prop :=
  forall l c, n <= l -> h !! l = Some c -> cell_fresh n c.

(** [c], started in a store whose first [n] objects are the ones that
    were there before, leaves those as they are, keeps the later ones
    closed, and its result satisfies [Q]. *)
Definition safe {A} (n : nat) (c : M A) (Q : A -> Prop) : Prop :=
  forall s, n <= length (heap s) -> closed n (heap s) ->
    take n (heap (c s).2) = take n (heap s)
    /\ n <= length (heap (c s).2)
    /\ closed n (heap (c s).2)
    /\ forall a, (c s).1 = Done a -> Q a.

End Store.

(** ** C10: the caller's objects *)

(** A caller's tree in an otherwise empty store: its root and the store. *)
Definition stored (j : json) : Store.outcome Store.val * Store.state :=
  Store.store j (Store.State [] []).

Definition note_with_author : json :=
  dict_of [("type", JStr "Note"); ("name", JStr "n");
           ("inReplyTo", JList [JStr "http://orig"]);
           ("image", JList [dict_of [("url", JStr "http://p")]]);
           ("attributedTo",
            JList [dict_of [("type", JStr "Person"); ("name", JStr "A")];
                   dict_of [("type", JStr "Person"); ("name", JStr "B")]])].

Definition reply_with_image : json :=
  dict_of [("verb", JStr "post");
           ("object", dict_of [("displayName", JStr "x")]);
           ("inReplyTo", JList [dict_of [("url", JStr "http://o")]]);
           ("image", dict_of [("url", JStr "http://p")])].

(** ** Further properties of the converters *)


(** * Properties *)

Example from_as1_like :
  from_as1 (dict_of [("verb", JStr "like")]) None (Some CONTEXT)
  = Ret (dict_of [("@context", JStr CONTEXT); ("type", JStr "Like")]).
Proof. vm_compute. reflexivity. Qed.

Example from_as1_url :
  from_as1 (dict_of [("url", JStr "http://x")]) None None = Ret (JStr "http://x").
Proof. vm_compute. reflexivity. Qed.

Example from_as1_nested :
  from_as1 (dict_of [("object", dict_of [("displayName", JStr "x")]);
                     ("inReplyTo", JList [dict_of [("url", JStr "http://o")]]);
                     ("image", dict_of [("url", JStr "http://p")])])
    None (Some CONTEXT)
  = Ret (dict_of [("@context", JStr CONTEXT);
                  ("object", dict_of [("name", JStr "x")]);
                  ("inReplyTo", JList [JStr "http://o"]);
                  ("image", JList [dict_of [("type", JStr "Image"); ("url", JStr "http://p")]])]).
Proof. vm_compute. reflexivity. Qed.

Example to_as1_like :
  to_as1 (dict_of [("type", JStr "Like")]) true
  = Logged [] (Ret (dict_of [("verb", JStr "like"); ("objectType", JStr "activity")])).
Proof. vm_compute. reflexivity. Qed.

Example to_as1_note_reply :
  to_as1 (dict_of [("type", JStr "Note"); ("inReplyTo", JList [JStr "http://orig"])]) true
  = Logged [] (Ret (dict_of [("objectType", JStr "comment");
                             ("inReplyTo", JList [dict_of [("url", JStr "http://orig")]])])).
Proof. vm_compute. reflexivity. Qed.

Example to_as1_two_authors :
  to_as1 (dict_of [("attributedTo",
                    JList [dict_of [("type", JStr "Person"); ("name", JStr "A")];
                           dict_of [("type", JStr "Person"); ("name", JStr "B")]])]) true
  = Logged [[dict_of [("type", JStr "Person"); ("name", JStr "B")]]]
      (Ret (dict_of [("author", dict_of [("objectType", JStr "person");
                                         ("displayName", JStr "A")])])).
Proof. vm_compute. reflexivity. Qed.

Example to_as1_image_string :
  to_as1 (dict_of [("image", JStr "ab")]) true
  = Logged [] (Ret (dict_of [("image", JList [dict_of [("url", JStr "a")];
                                              dict_of [("url", JStr "b")]])])).
Proof. vm_compute. reflexivity. Qed.

Example to_as1_image_dict :
  to_as1 (dict_of [("image", dict_of [("url", JStr "http://pic")])]) true
  = Logged [] (Ret (dict_of [("image", JList [dict_of [("url", JStr "url")]])])).
Proof. vm_compute. reflexivity. Qed.

(** ** Depth of the values inside a list or a dict *)

Lemma foldr_max_bound {A} (f : A -> nat) (l : list A) (x : A) :
  x ∈ l -> f x <= foldr (fun y acc => Nat.max (f y) acc) 0 l.
Proof.
  induction 1 as [x l | x y l _ IH]; simpl; lia.
Qed.

Lemma depth_elem (l : list json) (x : json) :
  x ∈ l -> depth x < depth (JList l).
Proof.
  intros Hx. simpl. apply Nat.lt_succ_r.
  apply (foldr_max_bound depth l x Hx).
Qed.

Lemma depth_lookup (m : gmap string json) (k : string) (v : json) :
  m !! k = Some v -> depth v < depth (JDict m).
Proof.
  intros Hk. simpl. apply Nat.lt_succ_r.
  rewrite map_fold_foldr.
  apply elem_of_map_to_list in Hk.
  induction (map_to_list m) as [|[k' v'] l IH]; [inversion Hk|].
  apply elem_of_cons in Hk as [Hk | Hk]; simpl.
  - inversion Hk; subst. lia.
  - specialize (IH Hk). lia.
Qed.

Lemma depth_dict_pos (m : gmap string json) : 0 < depth (JDict m).
Proof. simpl. lia. Qed.

Lemma below_dict (m : gmap string json) : below (depth (JDict m)) m.
Proof. intros k v. apply depth_lookup. Qed.

Lemma below_delete D d k : below D d -> below D (delete k d).
Proof. intros H k' v Hk. apply lookup_delete_Some in Hk as [_ Hk]. eauto. Qed.

Lemma below_insert D d k v : depth v < D -> below D d -> below D (<[k:=v]> d).
Proof.
  intros Hv H k' v' Hk. apply lookup_insert_Some in Hk as [[_ <-]|[_ Hk]]; eauto.
Qed.

Lemma below_get D d k : 0 < D -> below D d -> depth (dict_get k d) < D.
Proof.
  intros HD H. unfold dict_get. destruct (d !! k) eqn:E; simpl; eauto.
Qed.

Lemma below_get_list D d k x : below D d -> x ∈ get_list d k -> depth x < D.
Proof.
  intros H. unfold get_list. destruct (d !! k) as [v|] eqn:E.
  - pose proof (H _ _ E) as Hv.
    destruct v; try (intros ->%list_elem_of_singleton; exact Hv).
    intros Hx%depth_elem. lia.
  - intros Hx. inversion Hx.
Qed.

Lemma mapM_ext_in {A B} (f g : A -> result B) (l : list A) :
  (forall x, x ∈ l -> f x = g x) -> mapM f l = mapM g l.
Proof.
  induction l as [|a l IH]; intros H; [reflexivity|].
  simpl. rewrite (H a) by left. rewrite IH; [reflexivity|].
  intros x Hx. apply H. by right.
Qed.

Lemma lookup_dict_update_ne kvs d k :
  k ∉ kvs.*1 -> dict_update kvs d !! k = d !! k.
Proof.
  revert d. induction kvs as [|[k' v'] kvs IH]; intros d Hk; [reflexivity|].
  simpl in *. apply not_elem_of_cons in Hk as [Hne Hk].
  unfold dict_update in *. simpl. rewrite IH by done.
  by rewrite lookup_insert_ne.
Qed.

Lemma agree_ret {A} (a : A) : agree (Ret a) (Ret a).
Proof. split; [reflexivity|discriminate]. Qed.

Lemma agree_mret {A} (a : A) : agree (mret a) (mret a).
Proof. apply agree_ret. Qed.

Lemma agree_raise {A} e : agree (@Raise A e) (Raise e).
Proof. split; [reflexivity|discriminate]. Qed.

Lemma agree_bind {A B} (c1 c2 : result A) (f1 f2 : A -> result B) :
  agree c1 c2 ->
  (forall a, c1 = Ret a -> agree (f1 a) (f2 a)) ->
  agree (c1 ≫= f1) (c2 ≫= f2).
Proof.
  intros [<- Hc] Hf. destruct c1 as [a| |]; simpl.
  - apply Hf. reflexivity.
  - apply agree_raise.
  - congruence.
Qed.

Lemma agree_mapM {A B} (f g : A -> result B) (l : list A) :
  (forall x, x ∈ l -> agree (f x) (g x)) -> agree (mapM f l) (mapM g l).
Proof.
  induction l as [|a l IH]; intros H; [apply agree_ret|].
  simpl. apply agree_bind; [apply H; left|]. intros y _.
  apply agree_bind; [apply IH; intros x Hx; apply H; by right|].
  intros ys _. apply agree_ret.
Qed.

Lemma agree_table_get t key : agree (table_get t key) (table_get t key).
Proof. split; [reflexivity|]. destruct key; discriminate. Qed.

Lemma agree_py_iter v : agree (py_iter v) (py_iter v).
Proof. split; [reflexivity|]. destruct v; discriminate. Qed.

Lemma agree_attr_get k v : agree (attr_get k v) (attr_get k v).
Proof. split; [reflexivity|]. destruct v; discriminate. Qed.

Lemma all_from_as1_agree self1 self2 obj field t :
  (forall x, x ∈ get_list obj field -> agree (self1 x t None) (self2 x t None)) ->
  agree (all_from_as1 self1 obj field t) (all_from_as1 self2 obj field t).
Proof.
  intros H. unfold all_from_as1, pop_list.
  apply agree_bind; [by apply agree_mapM|]. intros l _. apply agree_ret.
Qed.

Lemma all_from_as1_ret self obj field t l obj' :
  all_from_as1 self obj field t = Ret (l, obj') -> obj' = delete field obj.
Proof.
  unfold all_from_as1, pop_list.
  destruct (mapM _ _); simpl; intros Heq; inversion Heq; reflexivity.
Qed.

Lemma from_as1_body_agree self1 self2 obj t c :
  (forall v t' c', depth v < depth obj -> agree (self1 v t' c') (self2 v t' c')) ->
  agree (from_as1_body self1 obj t c) (from_as1_body self2 obj t c).
Proof.
  intros H. unfold from_as1_body.
  destruct (negb (truthy obj)); [apply agree_ret|].
  destruct obj as [| | | | |m]; try apply agree_raise.
  unfold deepcopy, dict_pop. cbv beta iota zeta.
  set (D := depth (JDict m)) in *.
  assert (HD : 0 < D) by apply depth_dict_pos.
  assert (Hm : below D m) by apply below_dict.
  apply agree_bind; [apply agree_table_get|]. intros t1 _.
  apply agree_bind.
  { destruct (truthy t1); [apply agree_ret|].
    apply agree_bind; [apply agree_table_get|]. intros; apply agree_ret. }
  intros type _.
  match goal with |- context [dict_get "actor" ?o] => set (o0 := o) end.
  assert (H0 : below D o0).
  { subst o0. apply below_delete. destruct (truthy (of_opt c));
      [apply below_insert; [exact HD|]|]; by do 2 apply below_delete. }
  apply agree_bind; [apply H; by apply below_get|]. intros actor _.
  apply agree_bind.
  { apply all_from_as1_agree. intros x Hx. apply H. by eapply below_get_list. }
  intros [attachment o1] ->%all_from_as1_ret.
  apply agree_bind.
  { apply all_from_as1_agree. intros x Hx. apply H.
    eapply below_get_list; [|exact Hx]. by apply below_delete. }
  intros [attributedTo o2] ->%all_from_as1_ret.
  apply agree_bind.
  { apply all_from_as1_agree. intros x Hx. apply H.
    eapply below_get_list; [|exact Hx]. by do 2 apply below_delete. }
  intros [image o3] ->%all_from_as1_ret.
  apply agree_bind; [apply agree_py_iter|]. intros origs _.
  apply agree_bind; [apply agree_mapM; intros; apply agree_attr_get|].
  intros urls _.
  apply agree_bind; [apply H; apply below_get; [done|]; by do 3 apply below_delete|].
  intros object _.
  apply agree_bind.
  { apply all_from_as1_agree. intros x Hx. apply H.
    eapply below_get_list; [|exact Hx]. by do 3 apply below_delete. }
  intros [tag o4] ->%all_from_as1_ret.
  match goal with |- context [dict_get "location" ?o] => set (o5 := o) end.
  assert (Hloc : dict_get "location" o5
                 = dict_get "location" (delete "tags" (delete "image"
                     (delete "author" (delete "attachments" o0))))).
  { subst o5. unfold dict_get. rewrite lookup_dict_update_ne; [done|]. cbn.
    repeat (apply not_elem_of_cons; split; [done|]). apply not_elem_of_nil. }
  apply agree_bind.
  { destruct (truthy (dict_get "location" o5)); [|apply agree_ret].
    apply agree_bind; [|intros; apply agree_ret].
    apply H. rewrite Hloc. apply below_get; [done|]. by do 4 apply below_delete. }
  intros o6 _. destruct (keys_are "url" (trim_dict o6)); apply agree_ret.
Qed.

Lemma from_as1_fuel_agree (n m : nat) (obj : json) (t c : option string) :
  depth obj < n -> depth obj < m ->
  agree (from_as1_fuel n obj t c) (from_as1_fuel m obj t c).
Proof.
  revert m obj t c. induction n as [|n IH]; intros [|m] obj t c Hn Hm; try lia.
  simpl. apply from_as1_body_agree. intros v t' c' Hv. apply IH; lia.
Qed.

(** [from_as1] is the function its body defines: it satisfies the recursive
    equation of the source and always comes to an outcome. *)
Lemma from_as1_unfold (obj : json) (t c : option string) :
  from_as1 obj t c = from_as1_body from_as1 obj t c.
Proof.
  unfold from_as1 at 1. simpl.
  apply from_as1_body_agree. intros v t' c' Hv.
  apply from_as1_fuel_agree; lia.
Qed.

Lemma from_as1_terminates (obj : json) (t c : option string) :
  from_as1 obj t c <> OutOfFuel.
Proof.
  apply (from_as1_fuel_agree (S (depth obj)) (S (depth obj))); lia.
Qed.

Lemma agreeL_mret {A} (a : A) : agreeL (mret a) (mret a).
Proof. split; [reflexivity|discriminate]. Qed.

Lemma agreeL_lift {A} (r : result A) : r <> OutOfFuel -> agreeL (lift r) (lift r).
Proof. intros Hr. split; [reflexivity|exact Hr]. Qed.

Lemma agreeL_bind {A B} (c1 c2 : logged A) (f1 f2 : A -> logged B) :
  agreeL c1 c2 ->
  (forall a, outcome c1 = Ret a -> agreeL (f1 a) (f2 a)) ->
  agreeL (c1 ≫= f1) (c2 ≫= f2).
Proof.
  intros [<- Hc] Hf. destruct c1 as [w [a| |]]; simpl in *.
  - destruct (Hf a eq_refl) as [Heq Hne].
    unfold mbind, logged_bind; simpl. rewrite <- Heq. split; [reflexivity|exact Hne].
  - split; [reflexivity|discriminate].
  - congruence.
Qed.

Lemma agreeL_mapM {A B} (f g : A -> logged B) (l : list A) :
  (forall x, x ∈ l -> agreeL (f x) (g x)) -> agreeL (mapM f l) (mapM g l).
Proof.
  induction l as [|a l IH]; intros H; [apply agreeL_mret|].
  simpl. apply agreeL_bind; [apply H; left|]. intros y _.
  apply agreeL_bind; [apply IH; intros x Hx; apply H; by right|].
  intros ys _. apply agreeL_mret.
Qed.

Lemma all_to_as1_agree self1 self2 obj field :
  (forall x, x ∈ get_list obj field -> agreeL (self1 x true) (self2 x true)) ->
  agreeL (all_to_as1 self1 obj field) (all_to_as1 self2 obj field).
Proof.
  intros H. unfold all_to_as1, pop_list.
  apply agreeL_bind; [by apply agreeL_mapM|]. intros l _. apply agreeL_mret.
Qed.

Lemma all_to_as1_ret self obj field l obj' :
  outcome (all_to_as1 self obj field) = Ret (l, obj') -> obj' = delete field obj.
Proof.
  unfold all_to_as1, pop_list.
  destruct (mapM _ _) as [w [a| |]]; simpl; intros Heq; inversion Heq; reflexivity.
Qed.

Lemma url_or_as1_agree self1 self2 v :
  (is_basestring v = false -> agreeL (self1 v true) (self2 v true)) ->
  agreeL (url_or_as1 self1 v) (url_or_as1 self2 v).
Proof.
  intros H. unfold url_or_as1. destruct (is_basestring v); [apply agreeL_mret|].
  by apply H.
Qed.

(** The values a [for] loop over [v] yields are below the depth of [v], or
    strings. *)
Lemma py_iter_depth v l x :
  py_iter v = Ret l -> x ∈ l -> depth x <= depth v.
Proof.
  destruct v; simpl; intros Heq; inversion Heq; subst.
  - clear Heq. induction s; simpl; [intros Hx; inversion Hx|].
    intros [->|Hx]%elem_of_cons; [simpl; lia|auto].
  - intros Hx%depth_elem. simpl in *. lia.
  - intros (y & -> & _)%list_elem_of_fmap. simpl. lia.
Qed.

Lemma table_get_depth t key v : table_get t key = Ret v -> depth v = 0.
Proof.
  destruct key; simpl; intros Heq; inversion Heq; try reflexivity.
  by destruct (t !! s).
Qed.

Lemma to_as1_body_agree self1 self2 obj u :
  (forall v u', depth v < depth obj -> agreeL (self1 v u') (self2 v u')) ->
  agreeL (to_as1_body self1 obj u) (to_as1_body self2 obj u).
Proof.
  intros H. unfold to_as1_body.
  destruct (negb (truthy obj)); [apply agreeL_mret|].
  destruct (is_basestring obj); [apply agreeL_mret|].
  destruct obj as [| | | | |m]; try (split; [reflexivity|discriminate]).
  unfold deepcopy, dict_pop. cbv beta iota zeta.
  set (D := depth (JDict m)) in *.
  assert (HD : 0 < D) by apply depth_dict_pos.
  assert (Hm : below D m) by apply below_dict.
  set (m0 := delete "type" (delete "@context" m)).
  assert (H0 : below D m0) by (by do 2 apply below_delete).
  apply agreeL_bind.
  { destruct u; [|apply agreeL_mret].
    apply agreeL_bind; [apply agreeL_lift, agree_table_get|]. intros ot _.
    apply agreeL_bind; [apply agreeL_lift, agree_table_get|]. intros vb _.
    repeat match goal with |- context [if ?b then _ else _] => destruct b end;
      apply agreeL_mret. }
  intros o1 Ho1.
  assert (H1 : below D o1).
  { destruct u; [|simpl in Ho1; inversion Ho1; done].
    revert Ho1.
    destruct (table_get TYPE_TO_OBJECT_TYPE _) as [ot| |] eqn:Eot; simpl; try discriminate.
    destruct (table_get TYPE_TO_VERB _) as [vb| |] eqn:Evb; simpl; try discriminate.
    pose proof (table_get_depth _ _ _ Eot) as Hot.
    pose proof (table_get_depth _ _ _ Evb) as Hvb.
    repeat match goal with |- context [if ?b then _ else _] => destruct b end;
      simpl; intros Heq; inversion Heq;
      repeat (apply below_insert; [simpl; lia|]); done. }
  clear Ho1.
  apply agreeL_bind; [apply H; apply below_get; [done|]; by apply below_delete|].
  intros actor _.
  apply agreeL_bind.
  { apply all_to_as1_agree. intros x Hx. apply H.
    eapply below_get_list; [|exact Hx]. by apply below_delete. }
  intros [attachments o2] ->%all_to_as1_ret.
  set (o3 := delete "attachment" (delete "name" o1)).
  assert (H3 : below D o3) by (by do 2 apply below_delete).
  apply agreeL_bind; [apply agreeL_lift, agree_py_iter|]. intros imgs Himgs.
  apply agreeL_bind.
  { apply agreeL_mapM. intros x Hx. apply H. simpl in Himgs.
    unfold dict_get_or in Himgs. destruct (o3 !! "image") as [v|] eqn:E; simpl in Himgs.
    - pose proof (py_iter_depth _ _ _ Himgs Hx) as Hle.
      pose proof (H3 _ _ E). lia.
    - inversion Himgs; subst. inversion Hx. }
  intros image _.
  apply agreeL_bind.
  { apply agreeL_mapM. intros x Hx. apply url_or_as1_agree. intros _.
    apply H. by eapply below_get_list. }
  intros inReplyTo _.
  apply agreeL_bind.
  { apply url_or_as1_agree. intros _. apply H. by apply below_get. }
  intros location _.
  apply agreeL_bind; [apply H; by apply below_get|]. intros object _.
  apply agreeL_bind.
  { apply all_to_as1_agree. intros x Hx. apply H. by eapply below_get_list. }
  intros [tags o4] ->%all_to_as1_ret.
  unfold pop_list. cbv beta iota zeta.
  match goal with |- context [get_list ?o "attributedTo"] => set (o5 := o) end.
  assert (Hat : get_list o5 "attributedTo" = get_list (delete "tag" o3) "attributedTo").
  { subst o5. unfold get_list. rewrite lookup_dict_update_ne; [done|]. cbn.
    repeat (apply not_elem_of_cons; split; [done|]). apply not_elem_of_nil. }
  apply agreeL_bind; [|intros; apply agreeL_mret].
  rewrite Hat. destruct (get_list (delete "tag" o3) "attributedTo") as [|first rest] eqn:E;
    [apply agreeL_mret|].
  apply agreeL_bind.
  { destruct (1 <? length (first :: rest))%nat; [|apply agreeL_mret].
    split; [reflexivity|discriminate]. }
  intros _ _. apply agreeL_bind; [|intros; apply agreeL_mret].
  apply H. eapply below_get_list; [|rewrite E; left]. by apply below_delete.
Qed.

Lemma to_as1_fuel_agree (n m : nat) (obj : json) (u : bool) :
  depth obj < n -> depth obj < m ->
  agreeL (to_as1_fuel n obj u) (to_as1_fuel m obj u).
Proof.
  revert m obj u. induction n as [|n IH]; intros [|m] obj u Hn Hm; try lia.
  simpl. apply to_as1_body_agree. intros v u' Hv. apply IH; lia.
Qed.

(** [to_as1] satisfies the recursive equation of the source and always comes
    to an outcome. *)
Lemma to_as1_unfold (obj : json) (u : bool) :
  to_as1 obj u = to_as1_body to_as1 obj u.
Proof.
  unfold to_as1 at 1. simpl.
  apply to_as1_body_agree. intros v u' Hv.
  apply to_as1_fuel_agree; lia.
Qed.

Lemma to_as1_terminates (obj : json) (u : bool) :
  outcome (to_as1 obj u) <> OutOfFuel.
Proof.
  apply (to_as1_fuel_agree (S (depth obj)) (S (depth obj))); lia.
Qed.

Lemma check_outside_sound exc d :
  check_outside exc (map_to_list d) = true -> injective_outside exc d.
Proof.
  intros Hc k1 k2 v H1 H2.
  apply elem_of_map_to_list, list_elem_of_In in H1, H2.
  unfold check_outside in Hc. rewrite forallb_forall in Hc.
  specialize (Hc _ H1). rewrite forallb_forall in Hc. specialize (Hc _ H2).
  simpl in Hc. rewrite String.eqb_refl in Hc. simpl in Hc.
  apply orb_true_iff in Hc as [Hc|Hc].
  - left. by apply String.eqb_eq.
  - right. apply andb_true_iff in Hc as [Ha Hb].
    apply bool_decide_eq_true in Ha, Hb. by split.
Qed.

Lemma injective_outside_nil d : injective_outside [] d -> injective_table d.
Proof.
  intros H k1 k2 v H1 H2. destruct (H k1 k2 v H1 H2) as [?|[Hk _]]; [done|].
  inversion Hk.
Qed.

Lemma foldl_insert_lookup_Some (l : list (string * string))
    (acc : gmap string string) (k v : string) :
  foldl (fun a kv => <[kv.1 := kv.2]> a) acc l !! k = Some v ->
  (k, v) ∈ l \/ acc !! k = Some v.
Proof.
  revert acc. induction l as [|[k' v'] l IH]; intros acc; simpl; [by right|].
  intros [Hin|Hacc]%IH.
  - left. by right.
  - apply lookup_insert_Some in Hacc as [[<- <-]|[_ Hacc]]; [left; left|by right].
Qed.

Lemma foldl_insert_lookup_None (l : list (string * string))
    (acc : gmap string string) (k : string) :
  foldl (fun a kv => <[kv.1 := kv.2]> a) acc l !! k = None ->
  (forall v, (k, v) ∉ l) /\ acc !! k = None.
Proof.
  revert acc. induction l as [|[k' v'] l IH]; intros acc; simpl.
  - intros H. split; [|done]. intros v Hv. inversion Hv.
  - intros [Hl Hacc]%IH. apply lookup_insert_None in Hacc as [Hacc Hne].
    split; [|done]. intros v [[= -> ->]|Hin]%elem_of_cons; [done|].
    by apply (Hl v).
Qed.

(** What a lookup in a dict built from a list of items can give: a value some
    item carries for that key, and nothing only if no item has the key. *)
Lemma dict_literal_lookup_Some l k v :
  dict_literal l !! k = Some v -> (k, v) ∈ l.
Proof.
  intros [H|H]%foldl_insert_lookup_Some; [done|]. by rewrite lookup_empty in H.
Qed.

Lemma dict_literal_lookup_None l k :
  dict_literal l !! k = None -> forall v, (k, v) ∉ l.
Proof. intros [H _]%foldl_insert_lookup_None. exact H. Qed.

(** Whatever order [d.items()] comes in, the inverse of the object table
    differs from [TYPE_TO_OBJECT_TYPE] at most at ["Note"], where it holds
    ["note"] or ["comment"]. *)
Lemma invert_any_order (items : list (string * string)) (ty : string) :
  items ≡ₚ OBJECT_TYPE_TO_TYPE_items ->
  (ty <> "Note" -> _invert items !! ty = TYPE_TO_OBJECT_TYPE !! ty)
  /\ (ty = "Note" ->
      _invert items !! ty = Some "note" \/ _invert items !! ty = Some "comment").
Proof.
  intros Hp.
  assert (Hmem : forall k, (ty, k) ∈ map (fun kv => (kv.2, kv.1)) items
                   <-> (k, ty) ∈ OBJECT_TYPE_TO_TYPE_items).
  { intros k. rewrite <- Hp. rewrite !list_elem_of_In, in_map_iff.
    split.
    - intros ([a b] & [= <- <-] & Hin). exact Hin.
    - intros Hin. by exists (k, ty). }
  unfold _invert.
  destruct (dict_literal _ !! ty) as [k|] eqn:E.
  - apply dict_literal_lookup_Some, Hmem in E.
    split.
    + intros Hne. vm_compute in E.
      repeat (apply elem_of_cons in E as [E|E];
              [inversion E; subst; (done || by vm_compute)|]).
      inversion E.
    + intros ->. vm_compute in E.
      repeat (apply elem_of_cons in E as [E|E];
              [inversion E; subst; auto|]).
      inversion E.
  - pose proof (dict_literal_lookup_None _ _ E) as Hn.
    assert (Hno : forall k, (k, ty) ∉ OBJECT_TYPE_TO_TYPE_items).
    { intros k Hk. apply (Hn k), Hmem, Hk. }
    split.
    + intros _. symmetry. apply eq_None_not_Some. intros [k Hk].
      apply dict_literal_lookup_Some in Hk.
      apply list_elem_of_In, in_map_iff in Hk as ([a b] & [= <- <-] & Hin).
      apply (Hno a). by apply list_elem_of_In.
    + intros ->. exfalso. apply (Hno "note"). vm_compute.
      do 6 right. left.
Qed.

(** C6 (counterexample): ["comment"] and ["note"] both map to ["Note"] in
    [OBJECT_TYPE_TO_TYPE], so the claim fails. *)
Lemma C6_comment_note_collide : ~ C6_statement.
Proof.
  intros [Hinj _].
  assert (H : "comment" = "note"); [|discriminate H].
  apply (Hinj "comment" "note" "Note"); by vm_compute.
Qed.

(** C6 (amended): [VERB_TO_TYPE] has no two keys with the same value and its
    inverse keeps all ten entries; in [OBJECT_TYPE_TO_TYPE] the only two keys
    that share a value are ["comment"] and ["note"] (both ["Note"]), so its
    inverse keeps nine of the ten entries. *)
Theorem C6_table_injectivity :
  injective_table VERB_TO_TYPE
  /\ size TYPE_TO_VERB = size VERB_TO_TYPE
  /\ injective_outside ["comment"; "note"] OBJECT_TYPE_TO_TYPE
  /\ OBJECT_TYPE_TO_TYPE !! "comment" = Some "Note"
  /\ OBJECT_TYPE_TO_TYPE !! "note" = Some "Note"
  /\ size OBJECT_TYPE_TO_TYPE = 10
  /\ size TYPE_TO_OBJECT_TYPE = 9.
Proof.
  split; [|split; [|split; [|split; [|split; [|split]]]]].
  - apply injective_outside_nil, check_outside_sound. by vm_compute.
  - by vm_compute.
  - apply check_outside_sound. by vm_compute.
  - by vm_compute.
  - by vm_compute.
  - by vm_compute.
  - by vm_compute.
Qed.

(** C1 (counterexample): the link-only object whose [url] is the empty
    string does not come back; trimming removes the empty [url]. *)
Lemma C1_empty_url_lost :
  round_trip (link_only EmptyString) (Some CONTEXT) = Logged [] (Ret (JDict ∅))
  /\ round_trip (link_only EmptyString) (Some CONTEXT)
     <> Logged [] (Ret (link_only EmptyString)).
Proof. split; [by vm_compute|]. vm_compute. discriminate. Qed.

(** C1 (amended): for a link-only object whose [url] is a non-empty string,
    [to_as1(from_as1(obj))] is the object itself, with the default context
    and with no context; with no context [from_as1] collapses the object to
    the bare string, which [to_as1] expands back. *)
Theorem C1_link_round_trip (s : string) :
  s <> EmptyString ->
  round_trip (link_only s) (Some CONTEXT) = Logged [] (Ret (link_only s))
  /\ round_trip (link_only s) None = Logged [] (Ret (link_only s))
  /\ from_as1 (link_only s) None None = Ret (JStr s)
  /\ to_as1 (JStr s) true = Logged [] (Ret (link_only s)).
Proof.
  intros Hs. destruct s as [|a s]; [done|].
  repeat split; by vm_compute.
Qed.

Lemma C1_link_round_trip_witness :
  "http://x" <> EmptyString
  /\ round_trip (link_only "http://x") (Some CONTEXT)
     = Logged [] (Ret (link_only "http://x")).
Proof.
  split; [discriminate|].
  apply (C1_link_round_trip "http://x"). discriminate.
Defined.

(** ** What a successful [from_as1] computed *)

Ltac notin :=
  repeat (apply not_elem_of_cons; split; [done|]); apply not_elem_of_nil.

Lemma bind_Ret {A B} (c : result A) (f : A -> result B) (b : B) :
  c ≫= f = Ret b -> exists a, c = Ret a /\ f a = Ret b.
Proof. destruct c as [a| |]; simpl; [eauto|discriminate..]. Qed.

Lemma from_as1_dict_inv (m : gmap string json) (t c : option string) (r : json) :
  truthy (JDict m) = true ->
  from_as1 (JDict m) t c = Ret r ->
  exists type actor attachment attributedTo image urls object tag obj,
    from_as1_type m t = Ret type
    /\ from_as1 (dict_get "actor" m) None None = Ret actor
    /\ mapM (fun e => from_as1 e None None) (get_list m "attachments") = Ret attachment
    /\ mapM (fun e => from_as1 e (Some "Person") None) (get_list m "author")
       = Ret attributedTo
    /\ mapM (fun e => from_as1 e (Some "Image") None) (get_list m "image") = Ret image
    /\ (py_iter (dict_get_or "inReplyTo" (JList []) m) ≫= mapM (attr_get "url"))
       = Ret urls
    /\ from_as1 (dict_get "object" m) None None = Ret object
    /\ mapM (fun e => from_as1 e None None) (get_list m "tags") = Ret tag
    /\ (let base := from_as1_fields m c type actor (JList attachment)
                      (JList attributedTo) (JList image) (trim_nulls (JList urls))
                      object (JList tag) in
        if truthy (dict_get "location" m)
        then exists l, from_as1 (dict_get "location" m) (Some "Place") None = Ret l
                       /\ obj = <["location" := l]> base
        else obj = base)
    /\ r = from_as1_finish obj.
Proof.
  intros Hm H. rewrite from_as1_unfold in H. unfold from_as1_body in H.
  rewrite Hm in H. simpl negb in H. cbv iota in H.
  unfold deepcopy, dict_pop in H. cbv beta iota zeta in H.
  apply bind_Ret in H as (t1 & Ht1 & H).
  apply bind_Ret in H as (type & Htype & H).
  apply bind_Ret in H as (actor & Hactor & H).
  apply bind_Ret in H as ([attachment o1] & Hatt & H).
  apply bind_Ret in H as ([attributedTo o2] & Hattr & H).
  apply bind_Ret in H as ([image o3] & Himg & H).
  apply bind_Ret in H as (origs & Horigs & H).
  apply bind_Ret in H as (urls & Hurls & H).
  apply bind_Ret in H as (object & Hobject & H).
  apply bind_Ret in H as ([tag o4] & Htag & H).
  apply bind_Ret in H as (obj & Hobj & H).
  unfold all_from_as1, pop_list in Hatt, Hattr, Himg, Htag.
  apply bind_Ret in Hatt as (attachment' & Hatt & [= <- <-]).
  apply bind_Ret in Hattr as (attributedTo' & Hattr & [= <- <-]).
  apply bind_Ret in Himg as (image' & Himg & [= <- <-]).
  apply bind_Ret in Htag as (tag' & Htag & [= <- <-]).
  exists type, actor, attachment', attributedTo', image', urls, object, tag', obj.
  assert (Hlk : forall k, k ∉ ["verb"; "objectType"; "@context"] ->
    (if truthy (of_opt c)
     then <["@context":=JStr CONTEXT]> (delete "objectType" (delete "verb" m))
     else delete "objectType" (delete "verb" m)) !! k = m !! k).
  { intros k Hk. rewrite !not_elem_of_cons in Hk.
    destruct Hk as (?&?&?&_).
    destruct (truthy (of_opt c)); [rewrite lookup_insert_ne by done|];
      by rewrite !lookup_delete_ne by done. }
  assert (Hn : forall k, k ∉ ["verb"; "objectType"; "@context"; "displayName"] ->
            k <> "verb" /\ k <> "objectType" /\ k <> "@context" /\ k <> "displayName").
  { intros k Hk. rewrite !not_elem_of_cons in Hk. tauto. }
  clear Hn.
  rewrite lookup_delete_ne in Ht1, Htype by done.
  unfold dict_get, dict_get_or, get_list in Hactor, Hatt, Hattr, Himg, Horigs,
    Hobject, Htag.
  repeat (rewrite lookup_delete_ne in Hactor by done).
  repeat (rewrite lookup_delete_ne in Hatt by done).
  repeat (rewrite lookup_delete_ne in Hattr by done).
  repeat (rewrite lookup_delete_ne in Himg by done).
  repeat (rewrite lookup_delete_ne in Horigs by done).
  repeat (rewrite lookup_delete_ne in Hobject by done).
  repeat (rewrite lookup_delete_ne in Htag by done).
  rewrite (Hlk "actor") in Hactor by notin.
  rewrite (Hlk "attachments") in Hatt by notin.
  rewrite (Hlk "author") in Hattr by notin.
  rewrite (Hlk "image") in Himg by notin.
  rewrite (Hlk "inReplyTo") in Horigs by notin.
  rewrite (Hlk "object") in Hobject by notin.
  rewrite (Hlk "tags") in Htag by notin.
  split; [|split; [|split; [|split; [|split; [|split; [|split; [|split; [|split]]]]]]]].
  - unfold from_as1_type, dict_get. cbv zeta. rewrite Ht1.
    etransitivity; [|exact Htype]. reflexivity.
  - exact Hactor.
  - exact Hatt.
  - exact Hattr.
  - exact Himg.
  - unfold dict_get_or. rewrite Horigs. exact Hurls.
  - exact Hobject.
  - exact Htag.
  - cbv zeta. unfold from_as1_fields.
    assert (Hloc : forall v1 v2 v3 v4 v5 v6 v7 v8 v9 d,
      dict_get "location" (dict_update
        [("type", v1); ("name", v2); ("actor", v3); ("attachment", v4);
         ("attributedTo", v5); ("image", v6); ("inReplyTo", v7); ("object", v8);
         ("tag", v9)] d) = dict_get "location" d).
    { intros. unfold dict_get. rewrite lookup_dict_update_ne; [done|]. cbn. notin. }
    rewrite Hloc in Hobj.
    unfold dict_get in Hobj at 1 2. repeat (rewrite lookup_delete_ne in Hobj by done).
    rewrite (Hlk "location") in Hobj by notin.
    rewrite (Hlk "displayName") in Hobj by notin.
    fold (dict_get "location" m) in Hobj. fold (dict_get "displayName" m) in Hobj.
    destruct (truthy (dict_get "location" m)).
    + apply bind_Ret in Hobj as (l & Hl & [= <-]). exists l. split; [exact Hl|].
      reflexivity.
    + injection Hobj as <-. reflexivity.
  - unfold from_as1_finish. destruct (keys_are "url" (trim_dict obj));
      injection H as <-; reflexivity.
Qed.

(** ** What a successful [to_as1] computed *)

Lemma bindL_Ret {A B} (c : logged A) (f : A -> logged B) (L : list (list json)) (b : B) :
  c ≫= f = Logged L (Ret b) ->
  exists a La Lb, c = Logged La (Ret a) /\ f a = Logged Lb (Ret b) /\ L = (La ++ Lb)%list.
Proof.
  destruct c as [w [a| |]]; unfold mbind, logged_bind; simpl; [|discriminate..].
  destruct (f a) as [w' o] eqn:E. simpl. intros [= <- ->]. eauto 6.
Qed.

Lemma bindL_lift_Ret {A B} (c : result A) (f : A -> logged B) (L : list (list json)) (b : B) :
  lift c ≫= f = Logged L (Ret b) ->
  exists a, c = Ret a /\ f a = Logged L (Ret b).
Proof.
  intros H. apply bindL_Ret in H as (a & La & Lb & Hc & Hf & ->).
  unfold lift in Hc. injection Hc as <- ->. eauto.
Qed.

Lemma to_as1_typed_lookup m u o k :
  to_as1_typed m u = Ret o ->
  k ∉ ["@context"; "type"; "objectType"; "verb"] ->
  o !! k = m !! k.
Proof.
  intros H Hk. rewrite !not_elem_of_cons in Hk. destruct Hk as (?&?&?&?&_).
  unfold to_as1_typed in H. cbv zeta in H. destruct u.
  - apply bind_Ret in H as (ot & _ & H). apply bind_Ret in H as (vb & _ & H).
    injection H as <-. by rewrite !lookup_insert_ne, !lookup_delete_ne by done.
  - injection H as <-. by rewrite !lookup_delete_ne by done.
Qed.

Lemma to_as1_dict_inv (m : gmap string json) (u : bool) (L : list (list json))
    (r : json) :
  truthy (JDict m) = true ->
  to_as1 (JDict m) u = Logged L (Ret r) ->
  exists o actor attachments imgs image inReplyTo location object tags
         La Latt Limg Lirt Lloc Lobj Ltag obj Lau,
    to_as1_typed m u = Ret o
    /\ to_as1 (dict_get "actor" m) true = Logged La (Ret actor)
    /\ mapM (fun e => to_as1 e true) (get_list m "attachment")
       = Logged Latt (Ret attachments)
    /\ py_iter (dict_get_or "image" (JList []) m) = Ret imgs
    /\ mapM (fun e => to_as1 e false) imgs = Logged Limg (Ret image)
    /\ mapM (url_or_as1 to_as1) (get_list m "inReplyTo") = Logged Lirt (Ret inReplyTo)
    /\ url_or_as1 to_as1 (dict_get "location" m) = Logged Lloc (Ret location)
    /\ to_as1 (dict_get "object" m) true = Logged Lobj (Ret object)
    /\ mapM (fun e => to_as1 e true) (get_list m "tag") = Logged Ltag (Ret tags)
    /\ (let base := delete "attributedTo"
                      (to_as1_fields o actor (JList attachments) (JList image)
                         (JList inReplyTo) location object (JList tags)) in
        match get_list m "attributedTo" with
        | [] => obj = base /\ Lau = []
        | first :: rest =>
          exists author Lf,
            to_as1 first true = Logged Lf (Ret author)
            /\ obj = <["author" := author]> base
            /\ Lau = (own_warning (first :: rest) ++ Lf)%list
        end)
    /\ L = (La ++ Latt ++ Limg ++ Lirt ++ Lloc ++ Lobj ++ Ltag ++ Lau)%list
    /\ r = JDict (trim_dict obj).
Proof.
  intros Hm H. rewrite to_as1_unfold in H. unfold to_as1_body in H.
  rewrite Hm in H. simpl negb in H. simpl is_basestring in H. cbv iota in H.
  unfold deepcopy, dict_pop in H. cbv beta iota zeta in H.
  apply bindL_Ret in H as (o & L0 & L1 & Ho & H & ->).
  assert (Ho' : to_as1_typed m u = Ret o /\ L0 = []).
  { clear H. unfold to_as1_typed. cbv zeta. unfold dict_get in *.
    rewrite lookup_delete_ne in Ho by done. destruct u.
    - apply bindL_lift_Ret in Ho as (ot & Hot & Ho).
      apply bindL_lift_Ret in Ho as (vb & Hvb & Ho).
      rewrite Hot, Hvb. simpl.
      repeat first [ rewrite lookup_insert_eq in Ho
                   | rewrite lookup_insert_ne in Ho by done
                   | rewrite lookup_delete_ne in Ho by done ].
      simpl in Ho. unfold to_as1_objectType. unfold mret, logged_ret in Ho.
      destruct (truthy (default JNull (m !! "inReplyTo")) && py_in ot ["note"; "article"]).
      + injection Ho as <- <-. split; [|done]. f_equal.
        rewrite (insert_insert_ne _ "verb" "objectType") by done.
        by rewrite insert_insert_eq.
      + destruct (truthy vb && negb (truthy ot)).
        * injection Ho as <- <-. split; [|done]. f_equal.
          rewrite (insert_insert_ne _ "verb" "objectType") by done.
          by rewrite insert_insert_eq.
        * injection Ho as <- <-. split; [|done]. f_equal.
          by rewrite (insert_insert_ne _ "verb" "objectType") by done.
    - unfold mret, logged_ret in Ho. injection Ho as <- <-. done. }
  destruct Ho' as [Ho' ->]. clear Ho.
  assert (Hlk : forall k, k ∉ ["@context"; "type"; "objectType"; "verb"] ->
            o !! k = m !! k) by (intros; by eapply to_as1_typed_lookup).
  apply bindL_Ret in H as (actor & La & L2 & Hactor & H & ->).
  apply bindL_Ret in H as ([attachments o1] & Latt & L3 & Hatt & H & ->).
  apply bindL_lift_Ret in H as (imgs & Himgs & H).
  apply bindL_Ret in H as (image & Limg & L4 & Himage & H & ->).
  apply bindL_Ret in H as (inReplyTo & Lirt & L5 & Hirt & H & ->).
  apply bindL_Ret in H as (location & Lloc & L6 & Hloc & H & ->).
  apply bindL_Ret in H as (object & Lobj & L7 & Hobject & H & ->).
  apply bindL_Ret in H as ([tags o2] & Ltag & L8 & Htag & H & ->).
  apply bindL_Ret in H as (obj & Lau & L9 & Hobj & H & ->).
  injection H as <- <-.
  unfold all_to_as1, pop_list in Hatt, Htag.
  apply bindL_Ret in Hatt as (attachments' & Latt' & L10 & Hatt & [= <- <- <-] & ->).
  apply bindL_Ret in Htag as (tags' & Ltag' & L11 & Htag & [= <- <- <-] & ->).
  rewrite !app_nil_r.
  assert (Hga : get_list
        (dict_update
           [("displayName", default JNull (o !! "name")); ("actor", actor);
            ("attachments", JList attachments'); ("image", JList image);
            ("inReplyTo", JList inReplyTo); ("location", location);
            ("object", object); ("tags", JList tags')]
           (delete "tag" (delete "attachment" (delete "name" o))))
        "attributedTo" = get_list m "attributedTo").
  { unfold get_list. rewrite lookup_dict_update_ne by (cbn; notin).
    rewrite !lookup_delete_ne by done. by rewrite Hlk by notin. }
  rewrite Hga in Hobj. clear Hga.
  unfold dict_get, dict_get_or, get_list in Hactor, Hatt, Himgs, Hirt, Hloc,
    Hobject, Htag.
  repeat (rewrite lookup_delete_ne in Hactor by done).
  repeat (rewrite lookup_delete_ne in Hatt by done).
  repeat (rewrite lookup_delete_ne in Himgs by done).
  repeat (rewrite lookup_delete_ne in Hirt by done).
  repeat (rewrite lookup_delete_ne in Hloc by done).
  repeat (rewrite lookup_delete_ne in Hobject by done).
  repeat (rewrite lookup_delete_ne in Htag by done).
  rewrite (Hlk "actor") in Hactor by notin.
  rewrite (Hlk "attachment") in Hatt by notin.
  rewrite (Hlk "image") in Himgs by notin.
  rewrite (Hlk "inReplyTo") in Hirt by notin.
  rewrite (Hlk "location") in Hloc by notin.
  rewrite (Hlk "object") in Hobject by notin.
  rewrite (Hlk "tag") in Htag by notin.
  exists o, actor, attachments', imgs, image, inReplyTo, location, object, tags',
    La, Latt', Limg, Lirt, Lloc, Lobj, Ltag', obj, Lau.
  split; [exact Ho'|]. split; [exact Hactor|]. split; [exact Hatt|].
  split; [exact Himgs|]. split; [exact Himage|]. split; [exact Hirt|].
  split; [exact Hloc|]. split; [exact Hobject|]. split; [exact Htag|].
  split; [|split; [|reflexivity]].
  - cbv zeta. unfold to_as1_fields, dict_get.
    destruct (get_list m "attributedTo") as [|first rest].
    + unfold mret, logged_ret in Hobj. by injection Hobj as <- <-.
    + apply bindL_Ret in Hobj as ([] & L1 & L2 & Hw & Hobj & ->).
      apply bindL_Ret in Hobj as (author & Lf & L3 & Hauthor & Hobj & ->).
      unfold mret, logged_ret in Hobj. injection Hobj as <- <-.
      exists author, Lf. split; [exact Hauthor|]. split; [reflexivity|].
      rewrite app_nil_r. f_equal.
      destruct rest; simpl in Hw; unfold mret, logged_ret, warning in Hw;
        by injection Hw as <-.
  - reflexivity.
Qed.

(** ** Lookups in the results *)

Ltac map_lookup :=
  repeat first [ rewrite lookup_insert_eq
               | rewrite lookup_insert_ne by done
               | rewrite lookup_delete_eq
               | rewrite lookup_delete_ne by done ].

Lemma lookup_trim_dict (d : gmap string json) (k : string) :
  trim_dict d !! k = d !! k ≫= (fun x => keep (trim_nulls x)).
Proof. apply lookup_omap. Qed.

Lemma keys_are_only (k k' : string) (d : gmap string json) :
  keys_are k d = true -> k' <> k -> d !! k' = None.
Proof.
  unfold keys_are. intros [Hs [v Hv]%bool_decide_eq_true]%andb_true_iff Hk.
  apply Nat.eqb_eq in Hs.
  assert (Hd : size (delete k d) = 0).
  { rewrite map_size_delete, Hv. lia. }
  apply map_size_empty_inv in Hd.
  rewrite <- (lookup_delete_ne d k k') by done. by rewrite Hd.
Qed.

(** What [from_as1] returned for a non-empty dict, by key. *)
Lemma from_as1_dict_lookup (m : gmap string json) (t c : option string) (r : json) :
  truthy (JDict m) = true ->
  from_as1 (JDict m) t c = Ret r ->
  exists type image obj,
    from_as1_type m t = Ret type
    /\ mapM (fun e => from_as1 e (Some "Image") None) (get_list m "image") = Ret image
    /\ r = from_as1_finish obj
    /\ obj !! "type" = Some type
    /\ obj !! "image" = Some (JList image)
    /\ obj !! "verb" = None
    /\ obj !! "objectType" = None
    /\ obj !! "@context"
       = (if truthy (of_opt c) then Some (JStr CONTEXT) else m !! "@context")
    /\ obj !! "url" = m !! "url".
Proof.
  intros Hm H.
  destruct (from_as1_dict_inv m t c r Hm H)
    as (type & actor & att & attr & image & urls & object & tag & obj
        & Ht & _ & _ & _ & Himg & _ & _ & _ & Hobj & ->).
  exists type, image, obj. split; [exact Ht|]. split; [exact Himg|].
  split; [reflexivity|]. cbv zeta in Hobj.
  assert (Hk : forall k, k <> "location" ->
    obj !! k = from_as1_fields m c type actor (JList att) (JList attr)
                 (JList image) (trim_nulls (JList urls)) object (JList tag) !! k).
  { intros k Hk. destruct (truthy (dict_get "location" m)).
    - destruct Hobj as (l & _ & ->). by rewrite lookup_insert_ne by done.
    - by subst obj. }
  rewrite !Hk by done. unfold from_as1_fields, dict_update. simpl.
  repeat split; map_lookup; try reflexivity;
    destruct (truthy (of_opt c)); by map_lookup.
Qed.

Lemma table_values_nonempty (k v : string) :
  OBJECT_TYPE_TO_TYPE !! k = Some v \/ VERB_TO_TYPE !! k = Some v ->
  v <> EmptyString.
Proof.
  intros [H|H]; apply dict_literal_lookup_Some in H;
    unfold OBJECT_TYPE_TO_TYPE_items, VERB_TO_TYPE_items in H;
    repeat (apply elem_of_cons in H as [[= _ ->]|H]; [done|]);
    by apply elem_of_nil in H.
Qed.

Lemma truthy_JStr (s : string) :
  s <> EmptyString -> negb (String.eqb s EmptyString) = true.
Proof. by destruct s. Qed.

Lemma from_as1_type_resolved (m : gmap string json) (hint : option string)
    (ty : json) :
  from_as1_type m hint = Ret ty -> ty = resolved_type m hint.
Proof.
  unfold from_as1_type, resolved_type, py_or. cbv zeta.
  destruct (if truthy (dict_get "verb" m) then dict_get "verb" m
            else dict_get "objectType" m) as [| | |s| |]; simpl;
    try (intros [= <-]; reflexivity); try discriminate.
  destruct (OBJECT_TYPE_TO_TYPE !! s) as [v|] eqn:Ho; simpl.
  - rewrite truthy_JStr by (eapply table_values_nonempty; eauto).
    by intros [= <-].
  - destruct (VERB_TO_TYPE !! s) as [v|] eqn:Hv; simpl.
    + rewrite truthy_JStr by (eapply table_values_nonempty; eauto).
      by intros [= <-].
    + by intros [= <-].
Qed.

Lemma resolved_type_shape (m : gmap string json) (hint : option string) :
  trim_nulls (resolved_type m hint) = resolved_type m hint.
Proof.
  unfold resolved_type. cbv zeta.
  destruct (table_lookup OBJECT_TYPE_TO_TYPE _); [reflexivity|].
  destruct (table_lookup VERB_TO_TYPE _); [reflexivity|]. by destruct hint.
Qed.

(** ** C4: the [@context] stamp *)

Lemma from_as1_finish_dict (obj : gmap string json) (k : string) :
  k <> "url" -> is_Some (trim_dict obj !! k) ->
  from_as1_finish obj = JDict (trim_dict obj).
Proof.
  intros Hk [v Hv]. unfold from_as1_finish.
  destruct (keys_are "url" (trim_dict obj)) eqn:E; [|reflexivity].
  by rewrite (keys_are_only "url" k _ E Hk) in Hv.
Qed.

(** C4: for a non-empty dict and a non-empty context argument [c], the
    result of [from_as1] is a dict whose [@context] is the constant
    [CONTEXT], whatever [c] is; so a caller's own context URI is not the
    one stamped.  With no context the result's [@context] is whatever the
    input carried under that key, which is also why a nested object that
    came with an [@context] keeps it. *)
Theorem C4_context_stamp (m : gmap string json) (t : option string) (c : string)
    (r : json) :
  truthy (JDict m) = true ->
  c <> EmptyString ->
  from_as1 (JDict m) t (Some c) = Ret r ->
  (exists d, r = JDict d /\ d !! "@context" = Some (JStr CONTEXT))
  /\ from_as1 (dict_of [("url", JStr "http://x")]) None (Some "http://example.com/ctx")
     = Ret (dict_of [("@context", JStr CONTEXT); ("url", JStr "http://x")])
  /\ from_as1 (dict_of [("object", dict_of [("@context", JStr "http://other");
                                             ("displayName", JStr "x")])])
       None (Some CONTEXT)
     = Ret (dict_of [("@context", JStr CONTEXT);
                     ("object", dict_of [("@context", JStr "http://other");
                                         ("name", JStr "x")])])
  /\ from_as1 (dict_of [("object", dict_of [("displayName", JStr "x")])])
       None (Some CONTEXT)
     = Ret (dict_of [("@context", JStr CONTEXT);
                     ("object", dict_of [("name", JStr "x")])])
  /\ from_as1 (dict_of [("object", dict_of [("displayName", JStr "x")])])
       None None
     = Ret (dict_of [("object", dict_of [("name", JStr "x")])]).
Proof.
  intros Hm Hc H. split; [|repeat split; by vm_compute].
  destruct (from_as1_dict_lookup m t (Some c) r Hm H)
    as (type & image & obj & _ & _ & -> & _ & _ & _ & _ & Hctx & _).
  simpl of_opt in Hctx. unfold truthy in Hctx. rewrite truthy_JStr in Hctx by done.
  assert (Ht : trim_dict obj !! "@context" = Some (JStr CONTEXT)).
  { rewrite lookup_trim_dict, Hctx. reflexivity. }
  exists (trim_dict obj). split; [|exact Ht].
  apply (from_as1_finish_dict obj "@context"); [done|]. by rewrite Ht.
Qed.

Lemma C4_context_stamp_witness :
  truthy (dict_of [("url", JStr "http://x")]) = true
  /\ "http://example.com/ctx" <> EmptyString
  /\ exists d,
       dict_of [("@context", JStr CONTEXT); ("url", JStr "http://x")] = JDict d
       /\ d !! "@context" = Some (JStr CONTEXT).
Proof.
  split; [reflexivity|]. split; [discriminate|].
  apply (C4_context_stamp (dict_update [("url", JStr "http://x")] ∅) None
           "http://example.com/ctx"); [reflexivity | discriminate | by vm_compute].
Defined.


(** ** C9: the type of the result *)

Lemma keep_None (v : json) : keep v = None <-> is_null v = true.
Proof. unfold keep. by destruct (is_null v). Qed.

Lemma keep_Some (v w : json) : keep v = Some w -> w = v.
Proof. unfold keep. destruct (is_null v); by intros [= <-]. Qed.

(** The two ways [from_as1] ends for a non-empty dict: the trimmed dict, or
    the trimmed [url] value of the input when nothing else is left. *)
Lemma from_as1_dict_cases (m : gmap string json) (t c : option string) (r : json) :
  truthy (JDict m) = true ->
  from_as1 (JDict m) t c = Ret r ->
  exists type image obj,
    from_as1_type m t = Ret type
    /\ mapM (fun e => from_as1 e (Some "Image") None) (get_list m "image") = Ret image
    /\ obj !! "type" = Some type
    /\ obj !! "image" = Some (JList image)
    /\ obj !! "verb" = None
    /\ obj !! "objectType" = None
    /\ obj !! "@context"
       = (if truthy (of_opt c) then Some (JStr CONTEXT) else m !! "@context")
    /\ (r = JDict (trim_dict obj)
        \/ (r = trim_nulls (dict_get "url" m)
            /\ forall k, k <> "url" -> trim_dict obj !! k = None)).
Proof.
  intros Hm H.
  destruct (from_as1_dict_lookup m t c r Hm H)
    as (type & image & obj & Ht & Hi & -> & H1 & H2 & H3 & H4 & H5 & Hu).
  exists type, image, obj. do 7 (split; [assumption|]).
  unfold from_as1_finish. destruct (keys_are "url" (trim_dict obj)) eqn:E.
  - right. split; [|intros k Hk; by eapply keys_are_only].
    unfold keys_are in E. apply andb_true_iff in E as [_ E].
    apply bool_decide_eq_true in E as [v E]. unfold dict_get. rewrite E.
    rewrite lookup_trim_dict, Hu in E.
    destruct (m !! "url") as [x|]; [|discriminate]. simpl in *.
    by apply keep_Some in E.
  - by left.
Qed.

(** With a non-empty verb the objectType of the input plays no part in
    what [from_as1] does. *)
Lemma from_as1_verb_precedence (m : gmap string json) (t c : option string)
    (ot : json) :
  truthy (dict_get "verb" m) = true ->
  from_as1 (JDict (<["objectType" := ot]> m)) t c = from_as1 (JDict m) t c.
Proof.
  intros Hv.
  assert (Hm : truthy (JDict m) = true).
  { simpl. destruct (size m) eqn:E; [|reflexivity].
    apply map_size_empty_inv in E. subst m. unfold dict_get in Hv.
    by rewrite lookup_empty in Hv. }
  assert (Hm' : truthy (JDict (<["objectType" := ot]> m)) = true).
  { simpl. destruct (size (<["objectType" := ot]> m)) eqn:E; [|reflexivity].
    apply map_size_empty_inv in E.
    by apply insert_non_empty in E. }
  rewrite !from_as1_unfold. unfold from_as1_body. rewrite Hm, Hm'.
  simpl negb. cbv iota. unfold deepcopy, dict_pop. cbv beta iota zeta.
  rewrite (lookup_insert_ne m "objectType" "verb") by done.
  rewrite (delete_insert_ne m "verb" "objectType") by done.
  rewrite delete_insert_eq.
  unfold py_or. unfold dict_get in Hv. rewrite Hv. reflexivity.
Qed.

(** C9 (counterexample): a verb that is there but empty does not take
    precedence; the objectType is looked up and the result has type
    [Note], where the claimed order resolves nothing. *)
Lemma C9_empty_verb_falls_through :
  from_as1 (dict_of [("verb", JStr EmptyString); ("objectType", JStr "note")])
    None None
  = Ret (dict_of [("type", JStr "Note")])
  /\ claimed_type (dict_update [("verb", JStr EmptyString);
                                ("objectType", JStr "note")] ∅) None = JNull.
Proof. split; by vm_compute. Qed.

(** C9 (amended): for a non-empty AS1 dict on which [from_as1] returns, the
    result is a dict whose [type] is the value resolved in the stated
    order, the verb counting only when it is non-empty: the verb if it is
    non-empty, else the objectType, looked up in the objectType table,
    then the verb table, then the hint; the key is absent exactly when
    that value is null or empty.  The one exception is the collapse rule:
    then nothing was resolved and the result is the trimmed [url] value of
    the input.  With a non-empty verb, the input's objectType can be set
    to anything without changing the result, and [{verb: like}] gives type
    [Like]. *)
Theorem C9_type_resolution (m : gmap string json) (t c : option string) (r : json) :
  truthy (JDict m) = true ->
  from_as1 (JDict m) t c = Ret r ->
  ((exists d, r = JDict d /\ d !! "type" = keep (resolved_type m t))
   \/ (is_null (resolved_type m t) = true
       /\ r = trim_nulls (dict_get "url" m)))
  /\ (truthy (dict_get "verb" m) = true ->
      forall ot, from_as1 (JDict (<["objectType" := ot]> m)) t c = Ret r)
  /\ from_as1 (dict_of [("verb", JStr "like")]) None (Some CONTEXT)
     = Ret (dict_of [("@context", JStr CONTEXT); ("type", JStr "Like")]).
Proof.
  intros Hm H. split; [|split].
  - destruct (from_as1_dict_cases m t c r Hm H)
      as (type & image & obj & Ht & _ & Hty & _ & _ & _ & _ & Hr).
    apply from_as1_type_resolved in Ht. subst type.
    assert (Hk : trim_dict obj !! "type" = keep (resolved_type m t)).
    { rewrite lookup_trim_dict, Hty. simpl. by rewrite resolved_type_shape. }
    destruct Hr as [->|[-> Hn]].
    + left. by exists (trim_dict obj).
    + right. split; [|reflexivity]. apply keep_None.
      rewrite <- Hk. by apply Hn.
  - intros Hv ot. by rewrite from_as1_verb_precedence.
  - by vm_compute.
Qed.

Lemma C9_type_resolution_witness :
  truthy (dict_of [("verb", JStr "like"); ("objectType", JStr "note")]) = true
  /\ from_as1 (dict_of [("verb", JStr "like"); ("objectType", JStr "note")])
       None None = Ret (dict_of [("type", JStr "Like")])
  /\ from_as1 (JDict (<["objectType" := JStr "person"]>
                        (dict_update [("verb", JStr "like");
                                      ("objectType", JStr "note")] ∅)))
       None None = Ret (dict_of [("type", JStr "Like")]).
Proof.
  split; [reflexivity|]. split; [by vm_compute|].
  apply (C9_type_resolution
           (dict_update [("verb", JStr "like"); ("objectType", JStr "note")] ∅)
           None None (dict_of [("type", JStr "Like")]));
    [reflexivity | by vm_compute | by vm_compute].
Defined.

(** ** C7: a single image *)

(** C7: [from_as1] turns a single [image] value that is not a list into a
    one-element list holding its conversion with default type [Image].
    [to_as1] does not: it iterates the value itself, so for a dict it
    converts the dict's keys, and for a string its characters; a dict with
    the single key [url] becomes the image [{url: 'url'}]. *)
Theorem C7_single_image (m : gmap string json) (t c : option string)
    (v r : json) :
  m !! "image" = Some v ->
  (forall l, v <> JList l) ->
  from_as1 (JDict m) t c = Ret r ->
  (exists i,
     from_as1 v (Some "Image") None = Ret i
     /\ ((exists d, r = JDict d /\ d !! "image" = keep (trim_nulls (JList [i])))
         \/ (is_null (trim_nulls (JList [i])) = true
             /\ r = trim_nulls (dict_get "url" m))))
  /\ (forall (u : bool) (L : list (list json)) (r' : json),
        to_as1 (JDict m) u = Logged L (Ret r') ->
        exists imgs image Li d,
          py_iter v = Ret imgs
          /\ mapM (fun img => to_as1 img false) imgs = Logged Li (Ret image)
          /\ r' = JDict d
          /\ d !! "image" = keep (trim_nulls (JList image)))
  /\ to_as1 (dict_of [("image", dict_of [("url", JStr "http://pic")])]) true
     = Logged [] (Ret (dict_of [("image", JList [dict_of [("url", JStr "url")]])]))
  /\ to_as1 (dict_of [("image", JStr "ab")]) true
     = Logged [] (Ret (dict_of [("image", JList [dict_of [("url", JStr "a")];
                                                 dict_of [("url", JStr "b")]])])).
Proof.
  intros Hv Hl H.
  assert (Hm : truthy (JDict m) = true).
  { simpl. destruct (size m) eqn:E; [|reflexivity].
    apply map_size_empty_inv in E. subst m. by rewrite lookup_empty in Hv. }
  split; [|split; [|split; by vm_compute]].
  - destruct (from_as1_dict_cases m t c r Hm H)
      as (type & image & obj & _ & Himg & _ & Hi & _ & _ & _ & Hr).
    unfold get_list in Himg. rewrite Hv in Himg.
    assert (Hs : mapM (fun e => from_as1 e (Some "Image") None) [v] = Ret image).
    { destruct v; try exact Himg. by destruct (Hl l). }
    clear Himg. simpl in Hs.
    apply bind_Ret in Hs as (i & Hs & Hr'). injection Hr' as <-.
    exists i. split; [exact Hs|].
    assert (Hk : trim_dict obj !! "image" = keep (trim_nulls (JList [i]))).
    { by rewrite lookup_trim_dict, Hi. }
    destruct Hr as [->|[-> Hn]].
    + left. by exists (trim_dict obj).
    + right. split; [|reflexivity]. apply keep_None.
      rewrite <- Hk. by apply Hn.
  - intros u L r' H'.
    destruct (to_as1_dict_inv m u L r' Hm H')
      as (o & actor & att & imgs & image & irt & loc & object & tags
          & La & Latt & Limg & Lirt & Lloc & Lobj & Ltag & ob & Lau
          & _ & _ & _ & Himgs & Himage & _ & _ & _ & _ & Hob & _ & ->).
    unfold dict_get_or in Himgs. rewrite Hv in Himgs. simpl in Himgs.
    exists imgs, image, Limg, (trim_dict ob).
    split; [exact Himgs|]. split; [exact Himage|]. split; [reflexivity|].
    cbv zeta in Hob.
    assert (Hk : ob !! "image" = Some (JList image)).
    { destruct (get_list m "attributedTo").
      - destruct Hob as [-> _]. unfold to_as1_fields, dict_update. simpl.
        by map_lookup.
      - destruct Hob as (? & ? & _ & -> & _).
        unfold to_as1_fields, dict_update. simpl. by map_lookup. }
    by rewrite lookup_trim_dict, Hk.
Qed.

Lemma C7_single_image_witness :
  dict_update [("image", dict_of [("url", JStr "http://p")])] ∅ !! "image"
  = Some (dict_of [("url", JStr "http://p")])
  /\ from_as1 (dict_of [("image", dict_of [("url", JStr "http://p")])]) None None
     = Ret (dict_of [("image", JList [dict_of [("type", JStr "Image");
                                               ("url", JStr "http://p")]])])
  /\ exists i,
       from_as1 (dict_of [("url", JStr "http://p")]) (Some "Image") None = Ret i.
Proof.
  split; [by vm_compute|]. split; [by vm_compute|].
  destruct (C7_single_image
              (dict_update [("image", dict_of [("url", JStr "http://p")])] ∅)
              None None (dict_of [("url", JStr "http://p")])
              (dict_of [("image", JList [dict_of [("type", JStr "Image");
                                                  ("url", JStr "http://p")]])]))
    as [(i & Hi & _) _];
    [by vm_compute | discriminate | by vm_compute |].
  by exists i.
Defined.

(** ** C5: the amended statement *)



(** ** C3: objectType and verb of the result *)

(** What [to_as1] returned for a non-empty dict, by key. *)
Lemma to_as1_dict_lookup (m : gmap string json) (u : bool)
    (L : list (list json)) (r : json) :
  truthy (JDict m) = true ->
  to_as1 (JDict m) u = Logged L (Ret r) ->
  exists o ob,
    to_as1_typed m u = Ret o
    /\ r = JDict (trim_dict ob)
    /\ ob !! "objectType" = o !! "objectType"
    /\ ob !! "verb" = o !! "verb"
    /\ ob !! "attributedTo" = None.
Proof.
  intros Hm H.
  destruct (to_as1_dict_inv m u L r Hm H)
    as (o & actor & att & imgs & image & irt & loc & object & tags
        & La & Latt & Limg & Lirt & Lloc & Lobj & Ltag & ob & Lau
        & Hty & _ & _ & _ & _ & _ & _ & _ & _ & Hob & _ & ->).
  exists o, ob. split; [exact Hty|]. split; [reflexivity|]. cbv zeta in Hob.
  assert (Hk : forall k, k <> "author" ->
    ob !! k = delete "attributedTo"
                (to_as1_fields o actor (JList att) (JList image) (JList irt)
                   loc object (JList tags)) !! k).
  { intros k Hk. destruct (get_list m "attributedTo").
    - by destruct Hob as [-> _].
    - destruct Hob as (? & ? & _ & -> & _). by rewrite lookup_insert_ne by done. }
  rewrite !Hk by done. unfold to_as1_fields, dict_update. simpl.
  repeat split; by map_lookup.
Qed.

Lemma table_get_shape (t : gmap string string) (key v : json) :
  table_get t key = Ret v -> v = from_option JStr JNull (table_lookup t key).
Proof. destruct key; simpl; by intros [= <-]. Qed.

Lemma trim_nulls_from_option (o : option string) :
  trim_nulls (from_option JStr JNull o) = from_option JStr JNull o.
Proof. by destruct o. Qed.

Lemma inverse_values_nonempty (key : json) (v : string) :
  table_lookup TYPE_TO_OBJECT_TYPE key = Some v
  \/ table_lookup TYPE_TO_VERB key = Some v ->
  v <> EmptyString.
Proof.
  destruct key as [| | |s| |]; simpl; try (intros [?|?]; discriminate).
  intros [H|H]; apply dict_literal_lookup_Some in H;
    unfold OBJECT_TYPE_TO_TYPE_items, VERB_TO_TYPE_items in H; simpl in H;
    repeat (apply elem_of_cons in H as [[= _ ->]|H]; [done|]);
    by apply elem_of_nil in H.
Qed.

Lemma keep_JStr (v : string) : v <> EmptyString -> keep (JStr v) = Some (JStr v).
Proof. by destruct v. Qed.

Lemma py_in_JStr (s : string) (ss : list string) :
  py_in (JStr s) ss = true <-> s ∈ ss.
Proof. simpl. apply bool_decide_eq_true. Qed.

Lemma to_as1_objectType_cases (irt : json) (ot vb : option string) :
  (forall v, vb = Some v -> v <> EmptyString) ->
  (forall v, ot = Some v -> v <> EmptyString) ->
  let X := to_as1_objectType irt (from_option JStr JNull ot)
             (from_option JStr JNull vb) in
  (truthy irt = true -> ot = Some "note" \/ ot = Some "article" ->
   X = JStr "comment")
  /\ (~ (truthy irt = true /\ (ot = Some "note" \/ ot = Some "article")) ->
      is_Some vb -> ot = None -> X = JStr "activity")
  /\ (~ (truthy irt = true /\ (ot = Some "note" \/ ot = Some "article")) ->
      ~ (is_Some vb /\ ot = None) -> X = from_option JStr JNull ot).
Proof.
  intros Hvb Hot. cbv zeta. unfold to_as1_objectType.
  split; [|split].
  - intros -> [->| ->]; reflexivity.
  - intros Hn [v ->] ->. simpl. rewrite andb_false_r. simpl.
    by rewrite truthy_JStr by eauto.
  - intros Hn Hn'.
    destruct (truthy irt && py_in (from_option JStr JNull ot) ["note"; "article"])
      eqn:E.
    + apply andb_true_iff in E as [E1 E2]. destruct Hn. split; [exact E1|].
      destruct ot as [s|]; [|discriminate]. simpl in E2.
      apply bool_decide_eq_true in E2.
      apply elem_of_cons in E2 as [->|E2]; [by left|].
      apply elem_of_cons in E2 as [->|E2]; [by right|]. by apply elem_of_nil in E2.
    + destruct ot as [s|]; simpl.
      * rewrite (truthy_JStr s) by eauto. by rewrite andb_false_r.
      * destruct vb as [v|]; [|reflexivity]. destruct Hn'. eauto.
Qed.

(** C3: for a non-empty AS2 dict on which [to_as1] with [use_type] set
    returns, with [ot] and [vb] what the two inverse tables hold for the
    popped [type]: (a) if [inReplyTo] is non-empty and [ot] is [note] or
    [article], the result's [objectType] is [comment]; (b) otherwise, if
    there is a verb and no objectType, it is [activity]; (c) otherwise it
    is [ot], absent if there is none.  The result's [verb] is [vb].  A
    [Note] with an [inReplyTo] comes out as a [comment], a [Like] as verb
    [like] with objectType [activity]. *)
Theorem C3_vocabulary (m : gmap string json) (L : list (list json)) (r : json) :
  truthy (JDict m) = true ->
  to_as1 (JDict m) true = Logged L (Ret r) ->
  (let ot := table_lookup TYPE_TO_OBJECT_TYPE (dict_get "type" m) in
   let vb := table_lookup TYPE_TO_VERB (dict_get "type" m) in
   exists d, r = JDict d
     /\ d !! "verb" = JStr <$> vb
     /\ (truthy (dict_get "inReplyTo" m) = true ->
         ot = Some "note" \/ ot = Some "article" ->
         d !! "objectType" = Some (JStr "comment"))
     /\ (~ (truthy (dict_get "inReplyTo" m) = true
            /\ (ot = Some "note" \/ ot = Some "article")) ->
         is_Some vb -> ot = None ->
         d !! "objectType" = Some (JStr "activity"))
     /\ (~ (truthy (dict_get "inReplyTo" m) = true
            /\ (ot = Some "note" \/ ot = Some "article")) ->
         ~ (is_Some vb /\ ot = None) ->
         d !! "objectType" = JStr <$> ot))
  /\ to_as1 (dict_of [("type", JStr "Note"); ("inReplyTo", JList [JStr "http://orig"])])
       true
     = Logged [] (Ret (dict_of [("objectType", JStr "comment");
                                ("inReplyTo", JList [dict_of [("url", JStr "http://orig")]])]))
  /\ to_as1 (dict_of [("type", JStr "Like")]) true
     = Logged [] (Ret (dict_of [("verb", JStr "like"); ("objectType", JStr "activity")])).
Proof.
  intros Hm H. split; [|split; by vm_compute]. cbv zeta.
  destruct (to_as1_dict_lookup m true L r Hm H)
    as (o & ob & Hty & -> & Hot & Hvb & _).
  unfold to_as1_typed in Hty. cbv zeta in Hty.
  apply bind_Ret in Hty as (ot & Ho & Hty).
  apply bind_Ret in Hty as (vb & Hv & Hty). injection Hty as <-.
  apply table_get_shape in Ho, Hv.
  rewrite lookup_insert_eq in Hot.
  rewrite lookup_insert_ne, lookup_insert_eq in Hvb by done.
  exists (trim_dict ob). split; [reflexivity|].
  rewrite !lookup_trim_dict, Hot, Hvb. simpl. subst ot vb.
  assert (Hnv : forall v, table_lookup TYPE_TO_VERB (dict_get "type" m) = Some v ->
                          v <> EmptyString)
    by (intros; eapply inverse_values_nonempty; eauto).
  assert (Hno : forall v, table_lookup TYPE_TO_OBJECT_TYPE (dict_get "type" m) = Some v ->
                          v <> EmptyString)
    by (intros; eapply inverse_values_nonempty; eauto).
  destruct (to_as1_objectType_cases (dict_get "inReplyTo" m) _ _ Hnv Hno)
    as (Ha & Hb & Hc).
  split; [|split; [|split]].
  - destruct (table_lookup TYPE_TO_VERB (dict_get "type" m)) as [v|]; simpl;
      [by apply keep_JStr, Hnv | reflexivity].
  - intros H1 H2. by rewrite Ha.
  - intros H1 H2 H3. by rewrite Hb.
  - intros H1 H2. rewrite Hc by done.
    destruct (table_lookup TYPE_TO_OBJECT_TYPE (dict_get "type" m)) as [v|]; simpl;
      [by apply keep_JStr, Hno | reflexivity].
Qed.

Lemma C3_vocabulary_witness :
  truthy (dict_of [("type", JStr "Article"); ("inReplyTo", JStr "http://orig")]) = true
  /\ to_as1 (dict_of [("type", JStr "Article"); ("inReplyTo", JStr "http://orig")]) true
     = Logged [] (Ret (dict_of [("objectType", JStr "comment");
                                ("inReplyTo", JList [dict_of [("url", JStr "http://orig")]])]))
  /\ exists d,
       dict_of [("objectType", JStr "comment");
                ("inReplyTo", JList [dict_of [("url", JStr "http://orig")]])] = JDict d
       /\ d !! "verb" = None.
Proof.
  split; [reflexivity|]. split; [by vm_compute|].
  destruct (C3_vocabulary
              (dict_update [("type", JStr "Article"); ("inReplyTo", JStr "http://orig")] ∅)
              []
              (dict_of [("objectType", JStr "comment");
                        ("inReplyTo", JList [dict_of [("url", JStr "http://orig")]])]))
    as [(d & Hd & Hv & _) _]; [reflexivity | by vm_compute |].
  exists d. split; [exact Hd | exact Hv].
Defined.

(** C8 (counterexample): the input has exactly one [attributedTo] value,
    and yet a warning is logged: that value has two authors itself, and
    its conversion warns.  And when the first value converts to nothing,
    the result has no [author] at all, though the warning is logged. *)
Lemma C8_nested_author_warns :
  get_list (dict_update
              [("attributedTo",
                JList [dict_of [("attributedTo", JList [JStr "a"; JStr "b"])]])] ∅)
    "attributedTo"
  = [dict_of [("attributedTo", JList [JStr "a"; JStr "b"])]]
  /\ to_as1 (dict_of [("attributedTo",
                       JList [dict_of [("attributedTo", JList [JStr "a"; JStr "b"])]])])
       true
     = Logged [[JStr "b"]]
         (Ret (dict_of [("author", dict_of [("author", dict_of [("url", JStr "a")])])]))
  /\ to_as1 (dict_of [("attributedTo", JList [JDict ∅; JStr "b"])]) true
     = Logged [[JStr "b"]] (Ret (JDict ∅)).
Proof. repeat split; by vm_compute. Qed.

(** C8 (amended): for a non-empty AS2 dict whose [attributedTo] values are
    [first :: rest] and on which [to_as1] returns, the result is a dict
    with no [attributedTo] key whose [author] is the conversion of [first]
    alone (absent if that conversion is empty).  The log is the warnings
    of the conversions of the other fields, then this call's own warning,
    then the warnings of converting [first]; the call's own warning is one
    entry naming [rest] when [rest] is not empty, and nothing when it
    is. *)
Theorem C8_multi_author (m : gmap string json) (u : bool) (L : list (list json))
    (r first : json) (rest : list json) :
  truthy (JDict m) = true ->
  get_list m "attributedTo" = first :: rest ->
  to_as1 (JDict m) u = Logged L (Ret r) ->
  exists d author La,
    r = JDict d
    /\ to_as1 first true = Logged La (Ret author)
    /\ d !! "author" = keep (trim_nulls author)
    /\ d !! "attributedTo" = None
    /\ L = (nested_warnings m
            ++ (if bool_decide (rest = []) then [] else [rest])
            ++ La)%list.
Proof.
  intros Hm Hg H.
  destruct (to_as1_dict_inv m u L r Hm H)
    as (o & actor & att & imgs & image & irt & loc & object & tags
        & La & Latt & Limg & Lirt & Lloc & Lobj & Ltag & ob & Lau
        & Hty & Hactor & Hatt & Himgs & Himage & Hirt & Hloc & Hobject & Htag
        & Hob & -> & ->).
  cbv zeta in Hob. rewrite Hg in Hob.
  destruct Hob as (author & Lf & Hauthor & -> & ->).
  exists (trim_dict (<["author" := author]>
            (delete "attributedTo"
               (to_as1_fields o actor (JList att) (JList image) (JList irt)
                  loc object (JList tags))))), author, Lf.
  split; [reflexivity|]. split; [exact Hauthor|].
  split; [by rewrite lookup_trim_dict, lookup_insert_eq|].
  split; [by rewrite lookup_trim_dict, lookup_insert_ne, lookup_delete_eq by done|].
  unfold nested_warnings. rewrite Hactor, Hatt, Himgs, Himage, Hirt, Hloc, Hobject, Htag.
  simpl warnings. rewrite <- !app_assoc. do 7 f_equal.
  by destruct rest.
Qed.

Lemma C8_multi_author_witness :
  truthy (dict_of [("attributedTo", JList [JStr "a"; JStr "b"; JStr "c"])]) = true
  /\ get_list (dict_update [("attributedTo", JList [JStr "a"; JStr "b"; JStr "c"])] ∅)
       "attributedTo" = [JStr "a"; JStr "b"; JStr "c"]
  /\ to_as1 (dict_of [("attributedTo", JList [JStr "a"; JStr "b"; JStr "c"])]) true
     = Logged [[JStr "b"; JStr "c"]] (Ret (dict_of [("author", dict_of [("url", JStr "a")])]))
  /\ exists d author La,
       dict_of [("author", dict_of [("url", JStr "a")])] = JDict d
       /\ to_as1 (JStr "a") true = Logged La (Ret author)
       /\ d !! "author" = keep (trim_nulls author)
       /\ d !! "attributedTo" = None.
Proof.
  split; [reflexivity|]. split; [by vm_compute|]. split; [by vm_compute|].
  destruct (C8_multi_author
              (dict_update [("attributedTo", JList [JStr "a"; JStr "b"; JStr "c"])] ∅)
              true [[JStr "b"; JStr "c"]]
              (dict_of [("author", dict_of [("url", JStr "a")])])
              (JStr "a") [JStr "b"; JStr "c"])
    as (d & author & La & Hd & Ha & Hk & Hn & _);
    [reflexivity | by vm_compute | by vm_compute |].
  by exists d, author, La.
Defined.

(** ** C2: what the converters raise *)




(** ** The store: what a step may touch *)

Lemma st_safe_ret {A} (n : nat) (a : A) (Q : A -> Prop) :
  Q a -> Store.safe n (mret a) Q.
Proof.
  intros HQ s Hn Hc. simpl. repeat split; try done. by intros ? [= <-].
Qed.

Lemma st_safe_raise {A} (n : nat) (e : exn) (Q : A -> Prop) :
  Store.safe n (Store.raise e) Q.
Proof. intros s Hn Hc. simpl. repeat split; done. Qed.

Lemma st_safe_stuck {A} (n : nat) (Q : A -> Prop) :
  Store.safe n Store.stuck Q.
Proof. intros s Hn Hc. simpl. repeat split; done. Qed.

Lemma st_safe_bind {A B} (n : nat) (c : Store.M A) (f : A -> Store.M B)
    (Q : A -> Prop) (R : B -> Prop) :
  Store.safe n c Q ->
  (forall a, Q a -> Store.safe n (f a) R) ->
  Store.safe n (c ≫= f) R.
Proof.
  intros Hc Hf s Hn Hcl. destruct (Hc s Hn Hcl) as (H1 & H2 & H3 & H4).
  unfold mbind, Store.M_bind. destruct (c s) as [[a| |] s'] eqn:E; simpl in *.
  - destruct (Hf a (H4 a eq_refl) s' H2 H3) as (G1 & G2 & G3 & G4).
    repeat split; try done. by rewrite G1.
  - repeat split; done.
  - repeat split; done.
Qed.

Lemma st_safe_conseq {A} (n : nat) (c : Store.M A) (Q Q' : A -> Prop) :
  Store.safe n c Q -> (forall a, Q a -> Q' a) -> Store.safe n c Q'.
Proof.
  intros Hc HQ s Hn Hcl. destruct (Hc s Hn Hcl) as (H1 & H2 & H3 & H4).
  repeat split; try done. intros a Ha. by apply HQ, H4.
Qed.

Lemma st_safe_alloc (n : nat) (c : Store.cell) :
  Store.cell_fresh n c -> Store.safe n (Store.alloc c) (Store.fresh n).
Proof.
  intros Hf s Hn Hcl. simpl. repeat split.
  - by rewrite take_app_le.
  - rewrite length_app. lia.
  - intros l c' Hl Hlk. apply lookup_app_Some in Hlk as [Hlk|[Hlen Hlk]].
    + by eapply Hcl.
    + apply list_lookup_singleton_Some in Hlk as [_ <-]. exact Hf.
  - intros a [= <-]. exact Hn.
Qed.

Lemma st_safe_read_any (n l : nat) :
  Store.safe n (Store.read l) (fun _ => True).
Proof.
  intros s Hn Hcl. unfold Store.read.
  destruct (Store.heap s !! l); simpl; repeat split; done.
Qed.

Lemma st_safe_read (n l : nat) :
  n <= l -> Store.safe n (Store.read l) (Store.cell_fresh n).
Proof.
  intros Hl s Hn Hcl. unfold Store.read.
  destruct (Store.heap s !! l) as [c|] eqn:E; simpl; repeat split; try done.
  intros a [= <-]. exact (Hcl l c Hl E).
Qed.

Lemma st_safe_write (n l : nat) (c : Store.cell) :
  n <= l -> Store.cell_fresh n c ->
  Store.safe n (Store.write l c) (fun _ => True).
Proof.
  intros Hl Hf s Hn Hcl. simpl. repeat split.
  - by rewrite take_insert_ge.
  - by rewrite length_insert.
  - intros l' c' Hl' Hlk.
    apply list_lookup_insert_Some in Hlk as [(-> & <- & _)|[_ Hlk]];
      [exact Hf | by eapply Hcl].
Qed.

Lemma st_safe_warning (n : nat) (dropped : list Store.val) :
  Store.safe n (Store.warning dropped) (fun _ => True).
Proof. intros s Hn Hcl. simpl. repeat split; done. Qed.

Lemma st_safe_mapM {A B} (n : nat) (f : A -> Store.M B) (Q : B -> Prop)
    (l : list A) :
  (forall x, x ∈ l -> Store.safe n (f x) Q) ->
  Store.safe n (mapM f l) (Forall Q).
Proof.
  induction l as [|x l IH]; intros Hf; simpl.
  - by apply st_safe_ret.
  - eapply st_safe_bind; [apply Hf; by left|]. intros y Hy.
    eapply st_safe_bind; [apply IH; intros; apply Hf; by right|].
    intros k Hk. apply st_safe_ret. by constructor.
Qed.

Lemma st_safe_filterM {A} (n : nat) (p : A -> Store.M bool) (Q : A -> Prop)
    (l : list A) :
  (forall x, Store.safe n (p x) (fun _ => True)) ->
  Forall Q l ->
  Store.safe n (Store.filterM p l) (Forall Q).
Proof.
  intros Hp. induction 1 as [|x l Hx Hl IH]; simpl.
  - by apply st_safe_ret.
  - eapply st_safe_bind; [apply Hp|]. intros b _.
    eapply st_safe_bind; [apply IH|]. intros r Hr.
    apply st_safe_ret. destruct b; [by constructor | done].
Qed.

Lemma st_fresh_prim (n : nat) (v : Store.val) :
  (forall l, v <> Store.VRef l) -> Store.fresh n v.
Proof. destruct v; try done. intros H. by destruct (H l). Qed.

Lemma st_fresh_default (n : nat) (d : gmap string Store.val) (k : string) :
  map_Forall (fun _ => Store.fresh n) d ->
  Store.fresh n (default Store.VNull (d !! k)).
Proof.
  intros Hd. destruct (d !! k) as [v|] eqn:E; simpl; [|done]. by eapply Hd.
Qed.

Lemma st_fresh_foldl (n : nat) (kvs : list (string * Store.val))
    (d : gmap string Store.val) :
  Forall (fun kv => Store.fresh n kv.2) kvs ->
  map_Forall (fun _ => Store.fresh n) d ->
  map_Forall (fun _ => Store.fresh n)
    (foldl (fun acc kv => <[kv.1 := kv.2]> acc) d kvs).
Proof.
  intros Hk. revert d. induction Hk as [|kv kvs Hkv Hk IH]; intros d Hd; simpl;
    [done|]. apply IH. by apply map_Forall_insert_2.
Qed.

Lemma st_fresh_list_to_map (n : nat) (kvs : list (string * Store.val)) :
  Forall (fun kv => Store.fresh n kv.2) kvs ->
  map_Forall (fun _ => Store.fresh n) (list_to_map kvs : gmap string Store.val).
Proof.
  induction 1 as [|kv kvs Hkv Hk IH]; simpl.
  - apply map_Forall_empty.
  - by apply map_Forall_insert_2.
Qed.

Lemma st_safe_read_dict (n o : nat) :
  n <= o ->
  Store.safe n (Store.read_dict o) (map_Forall (fun _ => Store.fresh n)).
Proof.
  intros Ho. eapply st_safe_bind; [by apply st_safe_read|].
  intros [vs|d] Hc; [apply st_safe_stuck | by apply st_safe_ret].
Qed.

Lemma st_safe_dict_get (n o : nat) (k : string) :
  n <= o -> Store.safe n (Store.dict_get k o) (Store.fresh n).
Proof.
  intros Ho. eapply st_safe_bind; [by apply st_safe_read_dict|].
  intros d Hd. apply st_safe_ret. by apply st_fresh_default.
Qed.

Lemma st_safe_dict_pop (n o : nat) (k : string) :
  n <= o -> Store.safe n (Store.dict_pop k o) (Store.fresh n).
Proof.
  intros Ho. eapply st_safe_bind; [by apply st_safe_read_dict|].
  intros d Hd. eapply st_safe_bind.
  - apply st_safe_write; [done|]. simpl. by apply map_Forall_delete.
  - intros _ _. apply st_safe_ret. by apply st_fresh_default.
Qed.

Lemma st_safe_dict_set (n o : nat) (k : string) (v : Store.val) :
  n <= o -> Store.fresh n v ->
  Store.safe n (Store.dict_set k v o) (fun _ => True).
Proof.
  intros Ho Hv. eapply st_safe_bind; [by apply st_safe_read_dict|].
  intros d Hd. apply st_safe_write; [done|]. simpl.
  by apply map_Forall_insert_2.
Qed.

Lemma st_safe_dict_update (n o : nat) (kvs : list (string * Store.val)) :
  n <= o -> Forall (fun kv => Store.fresh n kv.2) kvs ->
  Store.safe n (Store.dict_update kvs o) (fun _ => True).
Proof.
  intros Ho Hv. eapply st_safe_bind; [by apply st_safe_read_dict|].
  intros d Hd. apply st_safe_write; [done|]. simpl. by apply st_fresh_foldl.
Qed.

Lemma st_safe_keys_are (n o : nat) (k : string) :
  n <= o -> Store.safe n (Store.keys_are k o) (fun _ => True).
Proof.
  intros Ho. eapply st_safe_bind; [by apply st_safe_read_dict|].
  intros d Hd. by apply st_safe_ret.
Qed.

Lemma st_safe_truthy (n : nat) (v : Store.val) :
  Store.safe n (Store.truthy v) (fun _ => True).
Proof.
  destruct v; simpl; try by apply st_safe_ret.
  eapply st_safe_bind; [apply st_safe_read_any|]. intros c _. by apply st_safe_ret.
Qed.

Lemma st_safe_is_dict (n : nat) (v : Store.val) :
  Store.safe n (Store.is_dict v) (fun _ => True).
Proof.
  destruct v; simpl; try by apply st_safe_ret.
  eapply st_safe_bind; [apply st_safe_read_any|]. intros c _. by apply st_safe_ret.
Qed.

Lemma st_safe_is_null (n : nat) (v : Store.val) :
  Store.safe n (Store.is_null v) (fun _ => True).
Proof.
  destruct v; unfold Store.is_null; try by apply st_safe_ret.
  all: eapply st_safe_bind; [apply st_safe_truthy|]; intros; by apply st_safe_ret.
Qed.

Lemma st_safe_table_get (n : nat) (t : gmap string string) (key : Store.val) :
  Store.safe n (Store.table_get t key) (Store.fresh n).
Proof.
  destruct key; simpl; try (by apply st_safe_ret); [|apply st_safe_raise].
  apply st_safe_ret. by destruct (t !! s).
Qed.

Lemma st_safe_as_list (n : nat) (v : option Store.val) :
  (forall x, v = Some x -> Store.fresh n x) ->
  Store.safe n (Store.as_list v) (Forall (Store.fresh n)).
Proof.
  intros Hv. destruct v as [[| | | |l]|]; simpl;
    try (apply st_safe_ret; by repeat constructor).
  assert (Hl : n <= l) by (by apply (Hv (Store.VRef l))).
  eapply st_safe_bind; [by apply st_safe_read|].
  intros [vs|d] Hc; apply st_safe_ret; [exact Hc | by repeat constructor].
Qed.

Lemma st_safe_get_list (n o : nat) (k : string) :
  n <= o -> Store.safe n (Store.get_list o k) (Forall (Store.fresh n)).
Proof.
  intros Ho. eapply st_safe_bind; [by apply st_safe_read_dict|].
  intros d Hd. apply st_safe_as_list. intros x Hx. by eapply Hd.
Qed.

Lemma st_safe_pop_list (n o : nat) (k : string) :
  n <= o -> Store.safe n (Store.pop_list o k) (Forall (Store.fresh n)).
Proof.
  intros Ho. eapply st_safe_bind; [by apply st_safe_read_dict|].
  intros d Hd. eapply st_safe_bind.
  - apply st_safe_write; [done|]. simpl. by apply map_Forall_delete.
  - intros _ _. apply st_safe_as_list. intros x Hx. by eapply Hd.
Qed.

Lemma st_fresh_chars (n : nat) (s : string) :
  Forall (Store.fresh n) (Store.chars s).
Proof. induction s; simpl; by constructor. Qed.

Lemma st_safe_py_iter (n : nat) (v : Store.val) :
  Store.fresh n v -> Store.safe n (Store.py_iter v) (Forall (Store.fresh n)).
Proof.
  intros Hv. destruct v; simpl; try apply st_safe_raise.
  - apply st_safe_ret, st_fresh_chars.
  - eapply st_safe_bind; [by apply st_safe_read|].
    intros [vs|d] Hc; apply st_safe_ret; [exact Hc|].
    apply Forall_fmap, Forall_true. done.
Qed.

Lemma st_safe_attr_get (n : nat) (k : string) (v : Store.val) :
  Store.fresh n v -> Store.safe n (Store.attr_get k v) (Store.fresh n).
Proof.
  intros Hv. destruct v; simpl; try apply st_safe_raise.
  eapply st_safe_bind; [by apply st_safe_read|].
  intros [vs|d] Hc; [apply st_safe_raise|].
  apply st_safe_ret. by apply st_fresh_default.
Qed.

Lemma st_safe_deepcopy (n fuel : nat) (v : Store.val) :
  Store.safe n (Store.deepcopy fuel v) (Store.fresh n).
Proof.
  revert v. induction fuel as [|fuel IH]; intros v.
  - destruct v; simpl; try (by apply st_safe_ret). apply st_safe_stuck.
  - destruct v; simpl; try (by apply st_safe_ret).
    eapply st_safe_bind; [apply st_safe_read_any|]. intros [vs|d] _.
    + eapply st_safe_bind; [apply st_safe_mapM; intros; apply IH|].
      intros vs' Hvs. by apply st_safe_alloc.
    + eapply st_safe_bind.
      * apply (st_safe_mapM n _ (fun kv => Store.fresh n kv.2)).
        intros kv _. eapply st_safe_bind; [apply IH|].
        intros v' Hv'. by apply st_safe_ret.
      * intros kvs Hkvs. apply st_safe_alloc. simpl.
        by apply st_fresh_list_to_map.
Qed.

Lemma st_safe_trim_nulls (n fuel : nat) (v : Store.val) :
  Store.safe n (Store.trim_nulls fuel v) (Store.fresh n).
Proof.
  revert v. induction fuel as [|fuel IH]; intros v.
  - destruct v; simpl; try (by apply st_safe_ret). apply st_safe_stuck.
  - destruct v; simpl; try (by apply st_safe_ret).
    eapply st_safe_bind; [apply st_safe_read_any|]. intros [vs|d] _.
    + eapply st_safe_bind; [apply st_safe_mapM; intros; apply IH|].
      intros vs' Hvs. eapply st_safe_bind.
      * apply st_safe_filterM; [|exact Hvs]. intros x.
        eapply st_safe_bind; [apply st_safe_is_null|]. intros; by apply st_safe_ret.
      * intros kept Hk. by apply st_safe_alloc.
    + eapply st_safe_bind.
      * apply (st_safe_mapM n _ (fun kv => Store.fresh n kv.2)).
        intros kv _. eapply st_safe_bind; [apply IH|].
        intros v' Hv'. by apply st_safe_ret.
      * intros kvs Hkvs. eapply st_safe_bind.
        -- apply st_safe_filterM; [|exact Hkvs]. intros x.
           eapply st_safe_bind; [apply st_safe_is_null|].
           intros; by apply st_safe_ret.
        -- intros kept Hk. apply st_safe_alloc. simpl.
           by apply st_fresh_list_to_map.
Qed.

(** ** The store: the converters *)

Tactic Notation "st_step" tactic3(lem) "as" simple_intropattern(x)
    simple_intropattern(H) :=
  eapply st_safe_bind; [lem | intros x H].

Lemma st_safe_all_from_as1 (n : nat)
    (self : Store.val -> option string -> option string -> Store.M Store.val)
    (o : nat) (field : string) (type : option string) :
  (forall v t c, Store.safe n (self v t c) (Store.fresh n)) ->
  n <= o ->
  Store.safe n (Store.all_from_as1 self o field type) (Store.fresh n).
Proof.
  intros Hs Ho. unfold Store.all_from_as1.
  st_step (by apply st_safe_pop_list) as elems He.
  st_step (apply st_safe_mapM; intros; apply Hs) as l Hl.
  by apply st_safe_alloc.
Qed.

Lemma st_safe_from_as1_body (n fuel : nat)
    (self : Store.val -> option string -> option string -> Store.M Store.val)
    (obj : Store.val) (t c : option string) :
  (forall v t c, Store.safe n (self v t c) (Store.fresh n)) ->
  Store.safe n (Store.from_as1_body fuel self obj t c) (Store.fresh n).
Proof.
  intros Hs. unfold Store.from_as1_body.
  st_step (apply st_safe_truthy) as b _.
  destruct b; simpl negb; cbv iota; [|by apply st_safe_alloc].
  st_step (apply st_safe_is_dict) as b _.
  destruct b; simpl negb; cbv iota; [|apply st_safe_raise].
  st_step (apply st_safe_deepcopy) as ob Hob.
  destruct ob as [| | | |o]; try apply st_safe_stuck.
  assert (Ho : n <= o) by done.
  st_step (by apply st_safe_dict_pop) as verb Hverb.
  st_step (by apply st_safe_dict_pop) as obj_type Hobj_type.
  st_step (apply st_safe_truthy) as tv _.
  st_step (apply st_safe_table_get) as t1 Ht1.
  st_step (apply st_safe_truthy) as tt1 _.
  eapply (st_safe_bind _ _ _ (Store.fresh n)).
  { destruct tt1; [by apply st_safe_ret|].
    st_step (apply st_safe_table_get) as t2 Ht2.
    st_step (apply st_safe_truthy) as tt2 _.
    apply st_safe_ret. destruct tt2; [done|]. by destruct t. }
  intros type Htype.
  st_step (apply st_safe_truthy) as tc _.
  eapply (st_safe_bind _ _ _ (fun _ => True)).
  { destruct tc; [by apply st_safe_dict_set | by apply st_safe_ret]. }
  intros _ _.
  st_step (by apply st_safe_dict_pop) as name Hname.
  st_step (by apply st_safe_dict_get) as a Ha.
  st_step (apply Hs) as actor Hactor.
  st_step (by apply st_safe_all_from_as1) as attachment Hattachment.
  st_step (by apply st_safe_all_from_as1) as attributedTo HattributedTo.
  st_step (by apply st_safe_all_from_as1) as image Himage.
  st_step (by apply st_safe_read_dict) as d Hd.
  eapply (st_safe_bind _ _ _ (Forall (Store.fresh n))).
  { destruct (d !! "inReplyTo") as [v|] eqn:E.
    - apply st_safe_py_iter. by eapply Hd.
    - by apply st_safe_ret. }
  intros origs Horigs.
  eapply (st_safe_bind _ _ _ (Forall (Store.fresh n))).
  { apply st_safe_mapM. intros x Hx. apply st_safe_attr_get.
    by eapply Forall_forall in Horigs. }
  intros urls Hurls.
  st_step (by apply st_safe_alloc) as urls' Hurls'.
  st_step (apply st_safe_trim_nulls) as inReplyTo HinReplyTo.
  st_step (by apply st_safe_dict_get) as ob Hob'.
  st_step (apply Hs) as object Hobject.
  st_step (by apply st_safe_all_from_as1) as tag Htag.
  eapply (st_safe_bind _ _ _ (fun _ => True)).
  { apply st_safe_dict_update; [done|]. by repeat constructor. }
  intros _ _.
  st_step (by apply st_safe_dict_get) as loc Hloc.
  st_step (apply st_safe_truthy) as tl _.
  eapply (st_safe_bind _ _ _ (fun _ => True)).
  { destruct tl; [|by apply st_safe_ret].
    st_step (apply Hs) as l Hl. by apply st_safe_dict_set. }
  intros _ _.
  st_step (apply st_safe_trim_nulls) as res Hres.
  destruct res as [| | | |o']; try apply st_safe_stuck.
  st_step (by apply st_safe_keys_are) as b _.
  destruct b; [by apply st_safe_dict_get | by apply st_safe_ret].
Qed.

Lemma st_safe_from_as1 (n fuel : nat) (obj : Store.val) (t c : option string) :
  Store.safe n (Store.from_as1 fuel obj t c) (Store.fresh n).
Proof.
  revert obj t c. induction fuel as [|fuel IH]; intros obj t c; simpl.
  - apply st_safe_stuck.
  - by apply st_safe_from_as1_body.
Qed.

Lemma st_safe_url_or_as1 (n : nat) (self : Store.val -> bool -> Store.M Store.val)
    (v : Store.val) :
  (forall v u, Store.safe n (self v u) (Store.fresh n)) ->
  Store.safe n (Store.url_or_as1 self v) (Store.fresh n).
Proof.
  intros Hs. unfold Store.url_or_as1. destruct v; simpl; try apply Hs.
  apply st_safe_alloc. simpl. by apply map_Forall_singleton.
Qed.

Lemma st_safe_all_to_as1 (n : nat) (self : Store.val -> bool -> Store.M Store.val)
    (o : nat) (field : string) :
  (forall v u, Store.safe n (self v u) (Store.fresh n)) ->
  n <= o ->
  Store.safe n (Store.all_to_as1 self o field) (Store.fresh n).
Proof.
  intros Hs Ho. unfold Store.all_to_as1.
  st_step (by apply st_safe_pop_list) as elems He.
  st_step (apply st_safe_mapM; intros; apply Hs) as l Hl.
  by apply st_safe_alloc.
Qed.

Lemma st_safe_to_as1_body (n fuel : nat)
    (self : Store.val -> bool -> Store.M Store.val)
    (obj : Store.val) (u : bool) :
  (forall v u, Store.safe n (self v u) (Store.fresh n)) ->
  Store.safe n (Store.to_as1_body fuel self obj u) (Store.fresh n).
Proof.
  intros Hs. unfold Store.to_as1_body.
  st_step (apply st_safe_truthy) as b _.
  destruct b; simpl negb; cbv iota; [|by apply st_safe_alloc].
  destruct (Store.is_basestring obj) eqn:Eb.
  { destruct obj; try discriminate. apply st_safe_alloc. simpl.
    by apply map_Forall_singleton. }
  st_step (apply st_safe_is_dict) as b _.
  destruct b; simpl negb; cbv iota; [|apply st_safe_raise].
  st_step (apply st_safe_deepcopy) as ob Hob.
  destruct ob as [| | | |o]; try apply st_safe_stuck.
  assert (Ho : n <= o) by done.
  st_step (by apply st_safe_dict_pop) as ctx _.
  st_step (by apply st_safe_dict_pop) as type Htype.
  eapply (st_safe_bind _ _ _ (fun _ => True)).
  { destruct u; [|by apply st_safe_ret].
    st_step (apply st_safe_table_get) as ot Hot.
    st_step (by apply st_safe_dict_set) as x1 _.
    st_step (apply st_safe_table_get) as vb Hvb.
    st_step (by apply st_safe_dict_set) as x2 _.
    st_step (by apply st_safe_dict_get) as irt Hirt.
    st_step (apply st_safe_truthy) as tirt _.
    st_step (by apply st_safe_dict_get) as ot' Hot'.
    destruct (tirt && Store.py_in ot' ["note"; "article"]);
      [by apply st_safe_dict_set|].
    st_step (by apply st_safe_dict_get) as vb' Hvb'.
    st_step (apply st_safe_truthy) as tvb _.
    st_step (apply st_safe_truthy) as tot _.
    destruct (tvb && negb tot); [by apply st_safe_dict_set | by apply st_safe_ret]. }
  intros _ _.
  st_step (by apply st_safe_dict_pop) as name Hname.
  st_step (by apply st_safe_dict_get) as a Ha.
  st_step (apply Hs) as actor Hactor.
  st_step (by apply st_safe_all_to_as1) as attachments Hattachments.
  st_step (by apply st_safe_read_dict) as d Hd.
  eapply (st_safe_bind _ _ _ (Forall (Store.fresh n))).
  { destruct (d !! "image") as [v|] eqn:E.
    - apply st_safe_py_iter. by eapply Hd.
    - by apply st_safe_ret. }
  intros imgs Himgs.
  st_step (apply st_safe_mapM; intros; apply Hs) as image Himage.
  st_step (by apply st_safe_alloc) as image' Himage'.
  st_step (by apply st_safe_get_list) as origs Horigs.
  st_step (apply st_safe_mapM; intros; by apply st_safe_url_or_as1)
    as inReplyTo HinReplyTo.
  st_step (by apply st_safe_alloc) as inReplyTo' HinReplyTo'.
  st_step (by apply st_safe_dict_get) as loc Hloc.
  st_step (by apply st_safe_url_or_as1) as location Hlocation.
  st_step (by apply st_safe_dict_get) as ob Hob'.
  st_step (apply Hs) as object Hobject.
  st_step (by apply st_safe_all_to_as1) as tags Htags.
  eapply (st_safe_bind _ _ _ (fun _ => True)).
  { apply st_safe_dict_update; [done|]. by repeat constructor. }
  intros _ _.
  st_step (by apply st_safe_pop_list) as attrib Hattrib.
  eapply (st_safe_bind _ _ _ (fun _ => True)).
  { destruct attrib as [|first rest]; [by apply st_safe_ret|].
    eapply (st_safe_bind _ _ _ (fun _ => True)).
    { destruct (Nat.ltb 1 (length (first :: rest)));
        [apply st_safe_warning | by apply st_safe_ret]. }
    intros _ _.
    st_step (apply Hs) as author Hauthor. by apply st_safe_dict_set. }
  intros _ _. apply st_safe_trim_nulls.
Qed.

Lemma st_safe_to_as1 (n fuel : nat) (obj : Store.val) (u : bool) :
  Store.safe n (Store.to_as1 fuel obj u) (Store.fresh n).
Proof.
  revert obj u. induction fuel as [|fuel IH]; intros obj u; simpl.
  - apply st_safe_stuck.
  - by apply st_safe_to_as1_body.
Qed.

(** A computation that is safe from the current end of the store leaves
    every object that is there as it is. *)
Lemma st_safe_prefix {A} (c : Store.M A) (Q : A -> Prop) (s : Store.state) :
  Store.safe (length (Store.heap s)) c Q ->
  Store.heap s `prefix_of` Store.heap (c s).2
  /\ Store.closed (length (Store.heap s)) (Store.heap (c s).2)
  /\ forall a, (c s).1 = Store.Done a -> Q a.
Proof.
  intros Hc. destruct (Hc s) as (H1 & H2 & H3 & H4); [done| |].
  - intros l c' Hl Hlk. apply lookup_lt_Some in Hlk. lia.
  - split; [|done].
    exists (drop (length (Store.heap s)) (Store.heap (c s).2)).
    rewrite <- (take_drop (length (Store.heap s)) (Store.heap (c s).2)) at 1.
    by rewrite H1, firstn_all.
Qed.

Lemma st_load_prefix (fuel : nat) (h h' : list Store.cell) (v : Store.val)
    (j : json) :
  h `prefix_of` h' ->
  Store.load fuel h v = Some j -> Store.load fuel h' v = Some j.
Proof.
  intros Hp. revert v j. induction fuel as [|fuel IH]; intros v j;
    destruct v; simpl; try done.
  destruct (h !! l) as [c|] eqn:E; [|done].
  rewrite (prefix_lookup_Some _ _ _ _ E Hp).
  destruct c as [vs|d]; intros H.
  - apply fmap_Some in H as (js & H & ->).
    apply mapM_Some in H.
    assert (H' : mapM (Store.load fuel h') vs = Some js).
    { apply mapM_Some. eapply Forall2_impl; [exact H|]. intros; by apply IH. }
    by rewrite H'.
  - apply fmap_Some in H as (js & H & ->).
    apply mapM_Some in H.
    assert (H' : mapM (fun kv => j ← Store.load fuel h' kv.2; Some (kv.1, j))
                   (map_to_list d) = Some js).
    { apply mapM_Some. eapply Forall2_impl; [exact H|]. intros kv r Hr. simpl in *.
      destruct (Store.load fuel h kv.2) as [x|] eqn:Ex; [|done].
      by rewrite (IH _ _ Ex). }
    by rewrite H'.
Qed.

(** C10: whatever the store, the input value, the arguments and the
    budget, and whether the call returns, raises or stops, every object
    that was in the store before a call of [from_as1] or [to_as1] is the
    same after it: the store has only grown.  So the caller's tree reads
    back as before.  The result is new: it refers to nothing that was in
    the store before the call, and neither does any object allocated
    during the call.  On a stored AS1 reply and a stored AS2 note the
    calls return what the converters over plain values return, and the
    input reads back unchanged. *)
Theorem C10_input_unchanged (fuel : nat) (obj : Store.val) (t c : option string)
    (u : bool) (s : Store.state) :
  let r1 := Store.from_as1 fuel obj t c s in
  let r2 := Store.to_as1 fuel obj u s in
  (Store.heap s `prefix_of` Store.heap r1.2
   /\ Store.heap s `prefix_of` Store.heap r2.2)
  /\ (forall k j, Store.load k (Store.heap s) obj = Some j ->
        Store.load k (Store.heap r1.2) obj = Some j
        /\ Store.load k (Store.heap r2.2) obj = Some j)
  /\ (Store.closed (length (Store.heap s)) (Store.heap r1.2)
      /\ forall r, r1.1 = Store.Done r -> Store.fresh (length (Store.heap s)) r)
  /\ (Store.closed (length (Store.heap s)) (Store.heap r2.2)
      /\ forall r, r2.1 = Store.Done r -> Store.fresh (length (Store.heap s)) r)
  /\ (exists v s0 r s1,
        stored reply_with_image = (Store.Done v, s0)
        /\ Store.from_as1 4 v None (Some CONTEXT) s0 = (Store.Done r, s1)
        /\ from_as1 reply_with_image None (Some CONTEXT)
           = from_option Ret OutOfFuel (Store.load 4 (Store.heap s1) r)
        /\ Store.load 4 (Store.heap s1) v = Some reply_with_image)
  /\ (exists v s0 r s1,
        stored note_with_author = (Store.Done v, s0)
        /\ Store.to_as1 4 v true s0 = (Store.Done r, s1)
        /\ outcome (to_as1 note_with_author true)
           = from_option Ret OutOfFuel (Store.load 4 (Store.heap s1) r)
        /\ Store.load 4 (Store.heap s1) v = Some note_with_author).
Proof.
  cbv zeta.
  destruct (st_safe_prefix (Store.from_as1 fuel obj t c) _ s
              (st_safe_from_as1 _ fuel obj t c)) as (F1 & F2 & F3).
  destruct (st_safe_prefix (Store.to_as1 fuel obj u) _ s
              (st_safe_to_as1 _ fuel obj u)) as (T1 & T2 & T3).
  split; [by split|]. split.
  { intros k j H. split; by eapply st_load_prefix. }
  split; [by split|]. split; [by split|]. split.
  - do 4 eexists. split; [vm_compute; reflexivity|].
    split; [vm_compute; reflexivity|]. split; vm_compute; reflexivity.
  - do 4 eexists. split; [vm_compute; reflexivity|].
    split; [vm_compute; reflexivity|]. split; vm_compute; reflexivity.
Qed.

Lemma C10_input_unchanged_witness :
  Store.load 4 (Store.heap (stored reply_with_image).2) (Store.VRef 4)
  = Some reply_with_image
  /\ Store.load 4
       (Store.heap (Store.from_as1 4 (Store.VRef 4) None (Some CONTEXT)
                      (stored reply_with_image).2).2)
       (Store.VRef 4)
     = Some reply_with_image.
Proof.
  assert (H : Store.load 4 (Store.heap (stored reply_with_image).2) (Store.VRef 4)
              = Some reply_with_image) by (vm_compute; reflexivity).
  split; [exact H|].
  exact (proj1 (proj1 (proj2 (C10_input_unchanged 4 (Store.VRef 4) None
                                (Some CONTEXT) true (stored reply_with_image).2))
                  4 reply_with_image H)).
Defined.




(** X1: [from_as1] is total: on every input it returns or raises, within
    the budget the nesting depth gives it, and it satisfies the recursion
    equation of the source. *)
Theorem X1_from_as1_total (obj : json) (t c : option string) :
  ((exists r, from_as1 obj t c = Ret r) \/ (exists e, from_as1 obj t c = Raise e))
  /\ from_as1 obj t c = from_as1_body from_as1 obj t c.
Proof.
  split; [|apply from_as1_unfold].
  pose proof (from_as1_terminates obj t c) as H.
  destruct (from_as1 obj t c); eauto. done.
Qed.

(** X2: [to_as1] is total in the same way. *)
Theorem X2_to_as1_total (obj : json) (u : bool) :
  ((exists r, outcome (to_as1 obj u) = Ret r)
   \/ (exists e, outcome (to_as1 obj u) = Raise e))
  /\ to_as1 obj u = to_as1_body to_as1 obj u.
Proof.
  split; [|apply to_as1_unfold].
  pose proof (to_as1_terminates obj u) as H.
  destruct (outcome (to_as1 obj u)); eauto. done.
Qed.

(** X3: whatever the order in which [d.items()] yields the object table,
    [_invert] gives the same inverse except at [Note], which gets [note] or
    [comment]. *)
Theorem X3_invert_order (items : list (string * string)) (ty : string) :
  items ≡ₚ OBJECT_TYPE_TO_TYPE_items ->
  (ty <> "Note" -> _invert items !! ty = TYPE_TO_OBJECT_TYPE !! ty)
  /\ (ty = "Note" ->
      _invert items !! ty = Some "note" \/ _invert items !! ty = Some "comment").
Proof. apply invert_any_order. Qed.

Lemma X3_invert_order_witness :
  reverse OBJECT_TYPE_TO_TYPE_items ≡ₚ OBJECT_TYPE_TO_TYPE_items
  /\ ("Image" <> "Note" ->
      _invert (reverse OBJECT_TYPE_TO_TYPE_items) !! "Image"
      = TYPE_TO_OBJECT_TYPE !! "Image").
Proof.
  split; [apply reverse_Permutation|].
  apply (X3_invert_order (reverse OBJECT_TYPE_TO_TYPE_items) "Image").
  apply reverse_Permutation.
Defined.





(** What [to_as1] trims for a non-empty dict, by key: the dict left by the
    vocabulary step, updated with the converted fields. *)
Lemma to_as1_dict_fields (m : gmap string json) (u : bool)
    (L : list (list json)) (r : json) :
  truthy (JDict m) = true ->
  to_as1 (JDict m) u = Logged L (Ret r) ->
  exists o actor att image irt Lirt loc Lloc object tags ob,
    to_as1_typed m u = Ret o
    /\ mapM (url_or_as1 to_as1) (get_list m "inReplyTo") = Logged Lirt (Ret irt)
    /\ url_or_as1 to_as1 (dict_get "location" m) = Logged Lloc (Ret loc)
    /\ r = JDict (trim_dict ob)
    /\ (get_list m "attributedTo" = [] -> L = nested_warnings m)
    /\ forall k, k <> "author" ->
         ob !! k = delete "attributedTo"
                     (to_as1_fields o actor (JList att) (JList image) (JList irt)
                        loc object (JList tags)) !! k.
Proof.
  intros Hm H.
  destruct (to_as1_dict_inv m u L r Hm H)
    as (o & actor & att & imgs & image & irt & loc & object & tags
        & La & Latt & Limg & Lirt & Lloc & Lobj & Ltag & ob & Lau
        & Hty & Hactor & Hatt & Himgs & Himage & Hirt & Hloc & Hobject & Htag
        & Hob & -> & ->).
  exists o, actor, att, image, irt, Lirt, loc, Lloc, object, tags, ob.
  split; [exact Hty|]. split; [exact Hirt|]. split; [exact Hloc|].
  split; [reflexivity|]. cbv zeta in Hob. split.
  - intros Hg. rewrite Hg in Hob. destruct Hob as [_ ->].
    unfold nested_warnings.
    rewrite Hactor, Hatt, Himgs, Himage, Hirt, Hloc, Hobject, Htag.
    simpl warnings. by rewrite app_nil_r.
  - intros k Hk. destruct (get_list m "attributedTo").
    + by destruct Hob as [-> _].
    + destruct Hob as (? & ? & _ & -> & _). by rewrite lookup_insert_ne by done.
Qed.

(** X6: [to_as1] renames [name] to [displayName] and takes the AS2 list
    keys away: the result for a non-empty dict holds under [displayName]
    the trimmed [name] of the input and has no [name], [attachment],
    [tag] or [attributedTo] key. *)
Theorem X6_to_as1_renames (m : gmap string json) (u : bool)
    (L : list (list json)) (r : json) :
  truthy (JDict m) = true ->
  to_as1 (JDict m) u = Logged L (Ret r) ->
  exists d, r = JDict d
    /\ d !! "displayName" = keep (trim_nulls (dict_get "name" m))
    /\ d !! "name" = None
    /\ d !! "attachment" = None
    /\ d !! "tag" = None
    /\ d !! "attributedTo" = None.
Proof.
  intros Hm H.
  destruct (to_as1_dict_fields m u L r Hm H)
    as (o & actor & att & image & irt & Lirt & loc & Lloc & object & tags & ob
        & Hty & _ & _ & -> & _ & Hk).
  exists (trim_dict ob). split; [reflexivity|].
  rewrite !lookup_trim_dict, !Hk by done.
  unfold to_as1_fields, dict_update. simpl foldl. map_lookup.
  unfold dict_get. rewrite (to_as1_typed_lookup m u o "name" Hty) by notin.
  done.
Qed.

Lemma X6_to_as1_renames_witness :
  truthy (dict_of [("name", JStr "x"); ("tag", JList [])]) = true
  /\ to_as1 (dict_of [("name", JStr "x"); ("tag", JList [])]) false
     = Logged [] (Ret (dict_of [("displayName", JStr "x")]))
  /\ exists d, dict_of [("displayName", JStr "x")] = JDict d
       /\ d !! "displayName"
          = keep (trim_nulls (dict_get "name"
                    (dict_update [("name", JStr "x"); ("tag", JList [])] ∅)))
       /\ d !! "name" = None
       /\ d !! "attachment" = None
       /\ d !! "tag" = None
       /\ d !! "attributedTo" = None.
Proof.
  split; [reflexivity|]. split; [vm_compute; reflexivity|].
  apply (X6_to_as1_renames (dict_update [("name", JStr "x"); ("tag", JList [])] ∅)
           false []);
    [reflexivity | vm_compute; reflexivity].
Defined.

(** X7: with [use_type] off, [to_as1] fills in no vocabulary: the result's
    [objectType] and [verb] are the input's own, trimmed. *)
Theorem X7_to_as1_without_type (m : gmap string json) (L : list (list json))
    (r : json) :
  truthy (JDict m) = true ->
  to_as1 (JDict m) false = Logged L (Ret r) ->
  exists d, r = JDict d
    /\ d !! "objectType" = m !! "objectType" ≫= (fun x => keep (trim_nulls x))
    /\ d !! "verb" = m !! "verb" ≫= (fun x => keep (trim_nulls x)).
Proof.
  intros Hm H.
  destruct (to_as1_dict_lookup m false L r Hm H)
    as (o & ob & Hty & -> & Hot & Hvb & _).
  exists (trim_dict ob). split; [reflexivity|].
  rewrite !lookup_trim_dict, Hot, Hvb.
  unfold to_as1_typed in Hty. cbv zeta in Hty. injection Hty as <-.
  by map_lookup.
Qed.

Lemma X7_to_as1_without_type_witness :
  truthy (dict_of [("type", JStr "Image"); ("url", JStr "http://p")]) = true
  /\ to_as1 (dict_of [("type", JStr "Image"); ("url", JStr "http://p")]) false
     = Logged [] (Ret (dict_of [("url", JStr "http://p")]))
  /\ exists d, dict_of [("url", JStr "http://p")] = JDict d
       /\ d !! "objectType" = None.
Proof.
  split; [reflexivity|]. split; [vm_compute; reflexivity|].
  destruct (X7_to_as1_without_type
              (dict_update [("type", JStr "Image"); ("url", JStr "http://p")] ∅)
              [] (dict_of [("url", JStr "http://p")]))
    as (d & Hd & Ho & _); [reflexivity | vm_compute; reflexivity |].
  exists d. split; [exact Hd | exact Ho].
Defined.

(** X8: without [attributedTo] values [to_as1] logs nothing of its own and
    sets no author: the log is that of the field conversions, and the
    result's [author] is the input's own, trimmed. *)
Theorem X8_to_as1_no_attribution (m : gmap string json) (u : bool)
    (L : list (list json)) (r : json) :
  truthy (JDict m) = true ->
  get_list m "attributedTo" = [] ->
  to_as1 (JDict m) u = Logged L (Ret r) ->
  L = nested_warnings m
  /\ exists d, r = JDict d
       /\ d !! "author" = m !! "author" ≫= (fun x => keep (trim_nulls x)).
Proof.
  intros Hm Hg H.
  destruct (to_as1_dict_inv m u L r Hm H)
    as (o & actor & att & imgs & image & irt & loc & object & tags
        & La & Latt & Limg & Lirt & Lloc & Lobj & Ltag & ob & Lau
        & Hty & Hactor & Hatt & Himgs & Himage & Hirt & Hloc & Hobject & Htag
        & Hob & -> & ->).
  cbv zeta in Hob. rewrite Hg in Hob. destruct Hob as [-> ->]. split.
  - unfold nested_warnings.
    rewrite Hactor, Hatt, Himgs, Himage, Hirt, Hloc, Hobject, Htag.
    simpl warnings. by rewrite app_nil_r.
  - eexists. split; [reflexivity|]. rewrite lookup_trim_dict.
    unfold to_as1_fields, dict_update. simpl foldl. map_lookup.
    by rewrite (to_as1_typed_lookup m u o "author" Hty) by notin.
Qed.

Lemma X8_to_as1_no_attribution_witness :
  truthy (dict_of [("author", JStr "me")]) = true
  /\ get_list (dict_update [("author", JStr "me")] ∅) "attributedTo" = []
  /\ to_as1 (dict_of [("author", JStr "me")]) true
     = Logged [] (Ret (dict_of [("author", JStr "me")]))
  /\ [] = nested_warnings (dict_update [("author", JStr "me")] ∅).
Proof.
  split; [reflexivity|]. split; [reflexivity|]. split; [vm_compute; reflexivity|].
  apply (X8_to_as1_no_attribution (dict_update [("author", JStr "me")] ∅) true []
           (dict_of [("author", JStr "me")]));
    [reflexivity | reflexivity | vm_compute; reflexivity].
Defined.



(** X10: [to_as1] turns each [inReplyTo] value that is a string into a
    link object: when the input's [inReplyTo] is a non-empty string, the
    result's [inReplyTo] is the one-element list holding [{url: s}]. *)
Theorem X10_to_as1_inReplyTo_link (m : gmap string json) (u : bool)
    (L : list (list json)) (s : string) (r : json) :
  m !! "inReplyTo" = Some (JStr s) ->
  s <> EmptyString ->
  to_as1 (JDict m) u = Logged L (Ret r) ->
  exists d, r = JDict d
    /\ d !! "inReplyTo" = Some (JList [JDict {["url" := JStr s]}]).
Proof.
  intros Hi Hs H.
  assert (Hm : truthy (JDict m) = true).
  { simpl. destruct (size m) eqn:E; [|reflexivity].
    apply map_size_empty_inv in E. subst m. by rewrite lookup_empty in Hi. }
  destruct (to_as1_dict_fields m u L r Hm H)
    as (o & actor & att & image & irt & Lirt & loc & Lloc & object & tags & ob
        & Hty & Hirt & _ & -> & _ & Hk).
  unfold get_list in Hirt. rewrite Hi in Hirt.
  unfold mapM, url_or_as1 in Hirt. simpl in Hirt. injection Hirt as <- <-.
  exists (trim_dict ob). split; [reflexivity|].
  rewrite lookup_trim_dict, Hk by done.
  unfold to_as1_fields, dict_update. simpl foldl. map_lookup.
  destruct s; [done|]. reflexivity.
Qed.

Lemma X10_to_as1_inReplyTo_link_witness :
  dict_update [("inReplyTo", JStr "http://orig")] ∅ !! "inReplyTo"
  = Some (JStr "http://orig")
  /\ "http://orig" <> EmptyString
  /\ to_as1 (dict_of [("inReplyTo", JStr "http://orig")]) false
     = Logged [] (Ret (dict_of [("inReplyTo",
                                 JList [dict_of [("url", JStr "http://orig")]])]))
  /\ exists d,
       dict_of [("inReplyTo", JList [dict_of [("url", JStr "http://orig")]])]
       = JDict d
       /\ d !! "inReplyTo" = Some (JList [JDict {["url" := JStr "http://orig"]}]).
Proof.
  split; [vm_compute; reflexivity|]. split; [discriminate|].
  split; [vm_compute; reflexivity|].
  apply (X10_to_as1_inReplyTo_link
           (dict_update [("inReplyTo", JStr "http://orig")] ∅) false []
           "http://orig");
    [vm_compute; reflexivity | discriminate | vm_compute; reflexivity].
Defined.
